(* ===== verification/_CoqProject ===== *)
-Q . S2P
Prelude.v
Storage.v
ImageUpload.v
ImageCleanup.v
Tracker.v
UploadWidget.v
WidgetSession.v
PostForm.v
Pages.v
EditorSession.v
Auth.v
