(* ===== verification/Prelude.v ===== *)
(** * lakabini-news: a verification development of the blog's workflows

    The repository is a small Next.js blog on a hosted backend (Supabase):
    pages render posts, an editor writes them, and images are uploaded to an
    object-store bucket ["blog-images"] and garbage-collected after edits.
    This development models the sources' TypeScript as Rocq functions over
    explicit state: the image workflow (upload, delete, cleanup, the
    editor's image state, the upload widget, the save), the pages that
    show posts, and the sign-in form.  It proves what they guarantee and where they fall short.

    ** Parts of the program and how they interact

    - The object store (the Supabase storage bucket, a library the sources
      only call) holds object paths ["<userId>/<name>"].  The sources use four
      of its calls: [upload] without overwrite, [getPublicUrl], [list] of one
      folder and [remove] of a batch of paths.
    - [src/lib/utils/image-upload.ts]: [uploadImage] validates one file (MIME
      type, 5 MiB bound), derives a fresh path from [Date.now()] and a random
      token, stores the object and returns its public URL; [deleteImage]
      turns a public URL back into a path and removes that object.
    - [src/lib/utils/image-cleanup.ts]: [cleanupUnusedImages] lists the
      user's folder and removes every object whose rebuilt URL is not in the
      list of used URLs it is given.
    - [src/components/blog/post-form.tsx]: the editor.  Its React state holds
      [images] and [featuredImage]; [handleImageAdd] / [handleImageRemove]
      maintain them (the "image reference tracker" of the spec);
      [handleSubmit] saves the post and, after an edit, gathers the URLs of
      all the author's posts and calls the cleanup; [handlePreview] hands the
      form to the preview page through [localStorage].
    - [src/components/ui/image-upload.tsx]: the upload widget.
      [handleFileUpload] checks the per-post image cap, uploads every file of
      a batch concurrently and reports the successes to the editor through
      [onImageAdd]; [handleImageRemove] deletes the object at once and calls
      [onImageRemove].
    - [src/app/...] and [post-card.tsx]: the pages read the posts table and
      decide what to show and to whom (drafts, feeds, the gallery, the edit
      and preview pages).

    ** Files of the development and what they model

    - [Prelude] (this file): notations of [blog_scope]; the JavaScript
      built-ins the sources call ([startsWith], [includes], [split], [pop],
      the [new URL(..).pathname] parser, [encodeURI] over UTF-8 bytes), with
      their lemmas; the hint database [blog] and the shared tactics.
    - [Storage]: the interface [StorageClient] (a type class) of what the
      bucket promises the sources, its laws [StorageLaws], and the instance
      [gset_bucket] that implements them on a [gset] of paths (modelled from
      the spec and the storage client's documented behaviour, since it is
      not under src/).  [list] is the paged listing of the client: sorted by
      name, at most [list_limit] = 100 entries.
    - [ImageUpload]: [uploadImage], [deleteImage], their result record and
      theorems: validation errors leave the store untouched, a success stores
      exactly one fresh object under the user's folder and never overwrites,
      and [deleteImage] of the returned URL removes that very object.
    - [ImageCleanup]: [cleanupUnusedImages]; it removes only unused objects
      of the user's folder, exactly those when the folder fits one page, and
      is then idempotent; with more than 100 objects a second run deletes
      more, and an image whose URL [encodeURI] changes is deleted while used.
    - [Tracker]: the editor's React state and its two handlers, as queued
      state updates applied at the next render; each handler reads the
      closure of the render it was created in.  With fresh snapshots the
      handlers refine the spec's abstract tracker [TrackerSpec] (§4.2)
      exactly, and the featured image is always the first image (an
      invariant by induction on the steps); with one snapshot shared by a
      concurrent batch, it is the last image to complete, and stale
      removals orphan it.
    - [UploadWidget]: [handleFileUpload] as one call: a batch of uploads
      completed in a given order, its cap and per-file independence, and
      the widget's [handleImageRemove].
    - [WidgetSession]: the widget over time, a step relation on its state
      ([isUploading], [dragActive], [uploadingFiles]), the batches in
      flight, the shared bucket and the latest editor: drags, drops, the
      guarded "Choose Files" button, removals and one step per completed
      upload.  Completions terminate (a measure on the work left), every
      reachable session can settle with the spinner off (liveness, from an
      invariant proved by induction on the steps); overlapping batches and
      same-name files break the spinner.
    - [PostForm]: the posts and profiles tables, [ensureUserProfile],
      [handleSubmit] and the save-then-clean workflow: a save keeps the
      tables well formed (rows under their ids, authors with profiles),
      never deletes a referenced image when the posts query succeeds; the
      failure cases and the cross-tab race of the spec.
    - [Pages]: [PostPage], [HomePage], [ProfilePage], [EditPostPage],
      [WritePage], [AuthPage], [PostCard], [handlePreview] and
      [PreviewPage] as functions to [notFound], [redirect] or a view record,
      with the navbar's links, [ShareButton]'s [handleShare] and the links
      of the static pages: drafts reach only their author, the home feed is
      the published posts newest first, the profile partitions the user's
      posts, the edit page opens only the user's own posts; scenarios across
      editor, save and page (a batch's first image is never shown, duplicate
      slugs make both posts unreachable, the preview slot is shared).
    - [EditorSession]: the whole [PostForm] component: its state and
      initialisers from the edited post, the field handlers, the guarded
      submit, Preview and Cancel, as a step relation beside the database,
      bucket and [localStorage]; saving and reopening restores the form.
    - [Auth]: [src/components/auth/auth-form.tsx] as a step relation
      [auth_step] on the component's state, the profiles table and the
      router: each async handler is a start and a completion, the provider's
      answers are inputs.  Its invariant (by induction on the steps): the
      loading flag is set exactly while a call is in flight, and the email
      card always holds an address; its [ensureUserProfile] writes the same
      table as the editor's and never overwrites a profile.

    ** Bounds, inputs and what is not modelled

    Nondeterminism is an input: [Date.now()] is an [N], the random token a
    string, the completion order of a batch a list of indices, and a network
    failure of a remote call an [option string] passed to that call.  No
    fuel is needed: every function is structurally recursive.  The storage
    listing keeps its page bound of 100 because the paging theorems depend
    on it.  Not modelled: markup and styling, [toLocaleDateString], the
    authentication provider's protocol and the [UserNav] menu (its
    component is not in the sources); the static pages are reduced to their
    links, the rest of them being text.  Async handlers that the user can
    interleave are split at their [await]s (the auth form, the upload
    widget); [handleSubmit] runs as one step: its submit button is
    disabled while it runs, but edits and widget actions made during its
    [await]s are not interleaved with it in [EditorSession] (the cross-tab
    race of [PostForm] covers saves racing each other). *)

From stdpp Require Export base list gmap strings pretty sorting.
From Stdlib Require Export Ascii.

(** [length] is the length of a list; [String.length] that of a string. *)
Abbreviation length := Datatypes.length.

Declare Scope blog_scope.
Delimit Scope blog_scope with blog.

Open Scope string_scope.
Open Scope nat_scope.
Open Scope list_scope.

(** A path or URL segment join: [a +/+ b] is the template [`${a}/${b}`]. *)
Notation "a +/+ b" := (String.append a (String.String "/"%char b))
  (at level 60, right associativity) : blog_scope.
Open Scope blog_scope.

Create HintDb blog.
Create Rewrite HintDb blog_rw.

(** ** JavaScript built-ins called by the sources *)
Module Js.
(** [s.startsWith(p)] *)
Definition startsWith (s p : string) : bool := String.prefix p s.

(** [s.includes(sub)] on strings *)
Fixpoint includes (s sub : string) : bool :=
  String.prefix sub s ||
  match s with
  | EmptyString => false
  | String.String _ s' => includes s' sub
  end.

(** [s.split(c)] with a one-character separator *)
Fixpoint split (c : ascii) (s : string) : list string :=
  match s with
  | EmptyString => [EmptyString]
  | String.String a s' =>
      let rest := split c s' in
      if bool_decide (a = c) then EmptyString :: rest
      else match rest with
           | r :: rs => String.String a r :: rs
           | [] => [String.String a EmptyString]
           end
  end.

(** [arr.pop()] for its value; [None] is [undefined] *)
Definition pop {A} (l : list A) : option A := last l.

(** [arr.includes(x)] on arrays of strings *)
Definition arr_includes (l : list string) (x : string) : bool :=
  bool_decide (x ∈ l).

(** [arr.filter((y) => y !== x)] *)
Definition filter_ne (x : string) (l : list string) : list string :=
  filter (λ y, y ≠ x) l.

(** [!s] for a string value: only the empty string is falsy *)
Definition falsy (s : string) : bool := bool_decide (s = "").

(** [s || null] *)
Definition or_null (s : string) : option string :=
  if falsy s then None else Some s.

(** [x ?? d] / [x || d] for an optional array *)
Definition or_empty {A} (o : option (list A)) : list A :=
  match o with Some l => l | None => [] end.
End Js.

(** Whether character [c] occurs in [s]. *)
Fixpoint has_char (c : ascii) (s : string) : bool :=
  match s with
  | EmptyString => false
  | String.String a s' => bool_decide (a = c) || has_char c s'
  end.

(** ** Lemmas on the built-ins *)

(** stdpp makes [String.append] opaque to [simpl]; these two equations
    and the tactic [ssimpl] take its place. *)
Lemma string_app_nil_l s : "" +:+ s = s.
Proof. reflexivity. Qed.

Lemma string_app_cons a s1 s2 : String.String a s1 +:+ s2 = String.String a (s1 +:+ s2).
Proof. reflexivity. Qed.

#[export] Hint Rewrite string_app_nil_l string_app_cons : blog_rw.

Ltac ssimpl := rewrite ?string_app_nil_l, ?string_app_cons; simpl.

Lemma string_app_assoc s1 s2 s3 : (s1 +:+ s2) +:+ s3 = s1 +:+ (s2 +:+ s3).
Proof. induction s1 as [|a s1 IH]; ssimpl; congruence. Qed.

Lemma string_app_nil_r s : s +:+ "" = s.
Proof. induction s as [|a s IH]; ssimpl; congruence. Qed.

Lemma split_nonempty c s : Js.split c s ≠ [].
Proof.
  induction s as [|a s IH]; simpl; [done|].
  case_bool_decide; [done|]. destruct (Js.split c s); done.
Qed.

Lemma split_no_char c s : has_char c s = false → Js.split c s = [s].
Proof.
  induction s as [|a s IH]; simpl; [done|].
  intros [Ha Hs]%orb_false_iff. apply bool_decide_eq_false in Ha.
  rewrite (IH Hs), bool_decide_false by done. done.
Qed.

Lemma split_app_sep c s1 s2 :
  Js.split c (s1 +:+ String.String c s2) = Js.split c s1 ++ Js.split c s2.
Proof.
  induction s1 as [|a s1 IH]; ssimpl.
  - by rewrite bool_decide_true.
  - rewrite IH. case_bool_decide; [done|].
    pose proof (split_nonempty c s1) as Hne.
    destruct (Js.split c s1); done.
Qed.

Lemma last_split_app_sep c s1 s2 :
  last (Js.split c (s1 +:+ String.String c s2)) = last (Js.split c s2).
Proof.
  rewrite split_app_sep, last_app.
  destruct (last (Js.split c s2)) eqn:E; [done|].
  apply last_None in E. by destruct (split_nonempty c s2).
Qed.

Lemma last_split_no_char c s : has_char c s = false → last (Js.split c s) = Some s.
Proof. intros H. by rewrite split_no_char. Qed.

Lemma prefix_app p s : String.prefix p (p +:+ s) = true.
Proof.
  induction p as [|a p IH]; simpl; [by destruct s|].
  destruct (ascii_dec a a); done.
Qed.

Lemma startsWith_app p s : Js.startsWith (p +:+ s) p = true.
Proof. apply prefix_app. Qed.

Lemma includes_app_r s1 s2 sub : Js.includes s2 sub = true → Js.includes (s1 +:+ s2) sub = true.
Proof.
  induction s1 as [|a s1 IH]; ssimpl; [done|].
  intros H. rewrite IH by done. apply orb_true_r.
Qed.

Lemma includes_prefix s sub : String.prefix sub s = true → Js.includes s sub = true.
Proof. destruct s; simpl; intros ->; done. Qed.

Lemma includes_app s1 sub s2 : Js.includes (s1 +:+ sub +:+ s2) sub = true.
Proof. apply includes_app_r, includes_prefix, prefix_app. Qed.

Lemma has_char_app c s1 s2 : has_char c (s1 +:+ s2) = has_char c s1 || has_char c s2.
Proof. induction s1 as [|a s1 IH]; ssimpl; [done|]. by rewrite IH, orb_assoc. Qed.

Lemma arr_includes_spec l x : Js.arr_includes l x = true ↔ x ∈ l.
Proof. apply bool_decide_eq_true. Qed.

Lemma filter_ne_elem x y l : y ∈ Js.filter_ne x l ↔ y ∈ l ∧ y ≠ x.
Proof. unfold Js.filter_ne. rewrite list_elem_of_filter. naive_solver. Qed.

Lemma filter_ne_not_elem x l : x ∉ l → Js.filter_ne x l = l.
Proof.
  unfold Js.filter_ne. induction l as [|y l IH]; intros H; [done|].
  rewrite filter_cons_True by set_solver. f_equal. apply IH. set_solver.
Qed.

#[export] Hint Rewrite split_app_sep last_split_app_sep has_char_app : blog_rw.
#[export] Hint Resolve startsWith_app includes_app prefix_app : blog.

(** Unfold the boolean tests of the built-ins into propositions. *)
Ltac js_simpl :=
  repeat match goal with
  | H : Js.arr_includes _ _ = true |- _ => apply arr_includes_spec in H
  | H : Js.arr_includes _ _ = false |- _ =>
      unfold Js.arr_includes in H; apply bool_decide_eq_false in H
  | |- context [Js.arr_includes ?l ?x] => unfold Js.arr_includes
  | H : Js.falsy _ = true |- _ => unfold Js.falsy in H; apply bool_decide_eq_true in H
  | H : Js.falsy _ = false |- _ => unfold Js.falsy in H; apply bool_decide_eq_false in H
  end.

(** ** [new URL(u).pathname]

    The WHATWG parser on absolute URLs [scheme://host/path?query#fragment]:
    the scheme is a letter followed by letters, digits, [+], [-] or [.]; the
    host runs to the first [/], [?] or [#] and must not be empty; the
    pathname runs to the first [?] or [#] and is ["/"] when empty.  [None]
    is the [TypeError] the constructor throws.  Percent-encoding and dot
    segments are not modelled. *)

Definition is_alpha (a : ascii) : bool :=
  let n := nat_of_ascii a in (Nat.leb 65 n && Nat.leb n 90) || (Nat.leb 97 n && Nat.leb n 122).
Definition is_digit (a : ascii) : bool :=
  let n := nat_of_ascii a in Nat.leb 48 n && Nat.leb n 57.
Definition is_scheme_char (a : ascii) : bool :=
  is_alpha a || is_digit a || bool_decide (a = "+"%char) || bool_decide (a = "-"%char)
  || bool_decide (a = "."%char).

(** Split [s] at the first character satisfying [stop]. *)
Fixpoint span (stop : ascii → bool) (s : string) : string * string :=
  match s with
  | EmptyString => (EmptyString, EmptyString)
  | String.String a s' =>
      if stop a then (EmptyString, s)
      else let '(l, r) := span stop s' in (String.String a l, r)
  end.

Definition host_stop (a : ascii) : bool :=
  bool_decide (a = "/"%char) || bool_decide (a = "?"%char) || bool_decide (a = "#"%char).
Definition path_stop (a : ascii) : bool :=
  bool_decide (a = "?"%char) || bool_decide (a = "#"%char).

(** What follows ["://"] after the rest of the scheme. *)
Fixpoint after_scheme (s : string) : option string :=
  match s with
  | EmptyString => None
  | String.String a s' =>
      if bool_decide (a = ":"%char) then
        match s' with
        | String.String b (String.String c rest) =>
            if bool_decide (b = "/"%char) && bool_decide (c = "/"%char) then Some rest else None
        | _ => None
        end
      else if is_scheme_char a then after_scheme s' else None
  end.

Definition url_pathname (u : string) : option string :=
  match u with
  | String.String a s' =>
      if is_alpha a then
        match after_scheme s' with
        | Some rest =>
            let '(host, tail) := span host_stop rest in
            if bool_decide (host = "") then None
            else let path := fst (span path_stop tail) in
                 Some (if bool_decide (path = "") then "/" else path)
        | None => None
        end
      else None
  | EmptyString => None
  end.

(** Characters a URL keeps as they are in a path segment (letters, digits
    and [-._~]); the round trips of the development assume them. *)
Definition url_safe_char (a : ascii) : bool :=
  is_alpha a || is_digit a || bool_decide (a = "-"%char) || bool_decide (a = "."%char)
  || bool_decide (a = "_"%char) || bool_decide (a = "~"%char).

Fixpoint all_chars (p : ascii → bool) (s : string) : bool :=
  match s with
  | EmptyString => true
  | String.String a s' => p a && all_chars p s'
  end.

(** A well-formed origin ["scheme://host"]. *)
Definition origin_ok (o : string) : Prop :=
  ∃ a sch host, o = String.String a (sch +:+ "://" +:+ host) ∧ is_alpha a = true ∧
    all_chars is_scheme_char sch = true ∧ host ≠ "" ∧ all_chars (negb ∘ host_stop) host = true.

Lemma after_scheme_app sch rest :
  all_chars is_scheme_char sch = true → after_scheme (sch +:+ "://" +:+ rest) = Some rest.
Proof.
  induction sch as [|a sch IH]; [done|].
  intros [Ha Hs]%andb_prop. rewrite string_app_cons. simpl. rewrite (IH Hs), Ha.
  case_bool_decide; [subst; discriminate|done].
Qed.

Lemma span_app stop l r :
  all_chars (negb ∘ stop) l = true → (match r with EmptyString => True | String.String a _ => stop a = true end) →
  span stop (l +:+ r) = (l, r).
Proof.
  intros Hl Hr. induction l as [|a l IH].
  - destruct r as [|a r]; simpl; [done|]. by rewrite Hr.
  - simpl in Hl. apply andb_prop in Hl as [Ha Hl]. apply negb_true_iff in Ha.
    rewrite string_app_cons. simpl. rewrite Ha, IH by done. done.
Qed.

Lemma url_pathname_origin o path :
  origin_ok o → all_chars (negb ∘ path_stop) path = true →
  (match path with EmptyString => False | String.String a _ => a = "/"%char end) →
  url_pathname (o +:+ path) = Some path.
Proof.
  intros (a & sch & host & -> & Ha & Hsch & Hhost & Hhs) Hp Hslash.
  simpl. rewrite Ha, !string_app_assoc. simpl.
  rewrite (after_scheme_app sch (host +:+ path)) by done.
  rewrite span_app by (done || (destruct path; [done|]; subst; reflexivity)).
  rewrite bool_decide_false by done.
  pose proof (span_app path_stop path "" Hp I) as Hsp. rewrite string_app_nil_r in Hsp.
  rewrite Hsp. simpl.
  rewrite bool_decide_false by (destruct path; done). done.
Qed.

(** ** [encodeURI]

    JavaScript strings are modelled as their UTF-8 bytes, so [encodeURI]
    keeps the characters of its unescaped set and writes every other byte
    as [%XX] (upper-case hex). *)

Definition uri_unescaped (a : ascii) : bool :=
  is_alpha a || is_digit a || has_char a "-_.!~*'();/?:@&=+$,#".

Definition hex_digit (n : nat) : ascii :=
  ascii_of_nat (if Nat.ltb n 10 then 48 + n else 55 + n).

Definition percent_encode (a : ascii) : string :=
  String.String "%"%char (String.String (hex_digit (nat_of_ascii a / 16))
    (String.String (hex_digit (nat_of_ascii a mod 16)) EmptyString)).

Fixpoint encodeURI (s : string) : string :=
  match s with
  | EmptyString => EmptyString
  | String.String a s' =>
      (if uri_unescaped a then String.String a EmptyString else percent_encode a) +:+ encodeURI s'
  end.

Lemma encodeURI_app s1 s2 : encodeURI (s1 +:+ s2) = encodeURI s1 +:+ encodeURI s2.
Proof.
  induction s1 as [|a s1 IH]; [done|].
  rewrite string_app_cons. simpl. rewrite IH, string_app_assoc. done.
Qed.

Lemma encodeURI_id s : all_chars uri_unescaped s = true → encodeURI s = s.
Proof.
  induction s as [|a s IH]; [done|]. simpl.
  intros [-> Hs]%andb_prop. rewrite IH by done. done.
Qed.

Lemma url_safe_unescaped a : url_safe_char a = true → uri_unescaped a = true.
Proof.
  unfold url_safe_char, uri_unescaped. intros H.
  destruct (is_alpha a); [done|]. destruct (is_digit a); [done|]. simpl in H.
  repeat case_bool_decide; subst; done.
Qed.

Lemma all_chars_impl (p q : ascii → bool) s :
  (∀ a, p a = true → q a = true) → all_chars p s = true → all_chars q s = true.
Proof.
  intros Hpq. induction s as [|a s IH]; simpl; [done|].
  intros [Ha Hs]%andb_prop. by rewrite Hpq, IH.
Qed.

Lemma all_chars_app p s1 s2 : all_chars p (s1 +:+ s2) = all_chars p s1 && all_chars p s2.
Proof. induction s1 as [|a s1 IH]; [done|]. rewrite string_app_cons. simpl. by rewrite IH, andb_assoc. Qed.

#[export] Hint Rewrite encodeURI_app all_chars_app : blog_rw.

(** ** [`${n}`] for a non-negative integer: its decimal digits *)

Lemma pretty_N_go_digits x s : all_chars is_digit s = true → all_chars is_digit (pretty_N_go x s) = true.
Proof.
  revert s. induction (N.lt_wf_0 x) as [x _ IH]; intros s Hs.
  destruct (decide (0 < x)%N) as [Hx|Hx].
  - rewrite pretty_N_go_step by done. apply IH; [by apply N.div_lt|].
    simpl. rewrite Hs, andb_true_r. unfold pretty_N_char. by repeat case_match.
  - assert (x = 0%N) as -> by lia. by rewrite pretty_N_go_0.
Qed.

Lemma pretty_N_digits (n : N) : all_chars is_digit (pretty n) = true.
Proof.
  unfold pretty, pretty_N. case_decide; [done|]. by apply pretty_N_go_digits.
Qed.

(** ** Characters of URL-safe segments *)

(** Decide a fact about one character of a known set by cases. *)
Ltac char_cases H :=
  repeat case_bool_decide; subst; try (vm_compute in H; congruence); try done.

Lemma url_safe_no_path_stop a : url_safe_char a = true → (negb ∘ path_stop) a = true.
Proof. intros H. unfold compose, path_stop. char_cases H. Qed.

Lemma url_safe_not_slash a : url_safe_char a = true → bool_decide (a = "/"%char) = false.
Proof. intros H. char_cases H. Qed.

Lemma digit_url_safe a : is_digit a = true → url_safe_char a = true.
Proof. intros H. unfold url_safe_char. by rewrite H, orb_true_r. Qed.

Lemma has_char_all_chars c s : has_char c s = false ↔ all_chars (λ a, negb (bool_decide (a = c))) s = true.
Proof.
  induction s as [|a s IH]; simpl; [done|].
  rewrite orb_false_iff, andb_true_iff, IH, negb_true_iff. done.
Qed.

Lemma url_safe_no_slash s : all_chars url_safe_char s = true → has_char "/"%char s = false.
Proof.
  intros Hs. apply has_char_all_chars. revert Hs. apply all_chars_impl.
  intros a Ha. by rewrite url_safe_not_slash.
Qed.

Lemma url_safe_unescaped_all s : all_chars url_safe_char s = true → all_chars uri_unescaped s = true.
Proof. apply all_chars_impl, url_safe_unescaped. Qed.

Lemma url_safe_no_path_stop_all s :
  all_chars url_safe_char s = true → all_chars (negb ∘ path_stop) s = true.
Proof. apply all_chars_impl, url_safe_no_path_stop. Qed.

(** Every piece of [s.split(c)] has the characters of [s]. *)
Lemma split_all_chars p c s :
  all_chars p s = true → Forall (λ seg, all_chars p seg = true) (Js.split c s).
Proof.
  induction s as [|a s IH]; simpl; [by repeat constructor|].
  intros [Ha Hs]%andb_prop. specialize (IH Hs).
  case_bool_decide; [by constructor|].
  destruct (Js.split c s) as [|r rs]; [by repeat constructor; simpl; rewrite Ha|].
  inversion IH; subst. constructor; [simpl; by rewrite Ha|done].
Qed.

Lemma pop_split_all_chars p c s e :
  all_chars p s = true → Js.pop (Js.split c s) = Some e → all_chars p e = true.
Proof.
  intros Hs He%last_Some_elem_of.
  exact (proj1 (Forall_forall _ _) (split_all_chars p c s Hs) e He).
Qed.

#[export] Hint Resolve url_safe_no_slash url_safe_unescaped_all url_safe_no_path_stop_all : blog.

Lemma split_pieces_no_sep c s : Forall (λ seg, has_char c seg = false) (Js.split c s).
Proof.
  induction s as [|a s IH]; simpl; [by repeat constructor|].
  case_bool_decide; [by constructor|].
  destruct (Js.split c s) as [|r rs]; [by repeat constructor; simpl; rewrite bool_decide_false|].
  inversion IH; subst. constructor; [simpl; by rewrite bool_decide_false|done].
Qed.

Lemma pop_split_no_sep c s e : Js.pop (Js.split c s) = Some e → has_char c e = false.
Proof.
  intros He%last_Some_elem_of.
  exact (proj1 (Forall_forall _ _) (split_pieces_no_sep c s) e He).
Qed.

Lemma join_inj u n1 n2 : u +/+ n1 = u +/+ n2 → n1 = n2.
Proof. intros H. apply (inj (String.app u)) in H. by injection H. Qed.

(** An invariant of a step relation holds along its reflexive-transitive
    closure. *)
Lemma rtc_invariant {A} (R : relation A) (P : A → Prop) :
  (∀ x y, P x → R x y → P y) → ∀ x y, rtc R x y → P x → P y.
Proof. intros Hstep x y Hr. induction Hr; eauto. Qed.

(** ** Sums over lists updated by index *)

Lemma sum_list_with_insert {A} (f : A → nat) l k x y :
  l !! k = Some y → sum_list_with f (<[k:=x]> l) + f y = sum_list_with f l + f x.
Proof.
  revert k. induction l as [|z l IH]; intros [|k] Hk; simplify_eq/=; [lia|].
  specialize (IH k Hk). lia.
Qed.

Lemma sum_list_with_delete {A} (f : A → nat) l k y :
  l !! k = Some y → sum_list_with f (delete k l) + f y = sum_list_with f l.
Proof.
  revert k. induction l as [|z l IH]; intros [|k] Hk; simplify_eq/=; [lia|].
  specialize (IH k Hk). lia.
Qed.

(** A measure that decreases along a relation makes its converse
    well-founded: the relation has no infinite chains. *)
Lemma wf_by_measure {A} (R : relation A) (m : A → nat) :
  (∀ x y, R x y → m y < m x) → well_founded (λ y x, R x y).
Proof.
  intros Hm. apply (wf_projected (<) m); [|apply lt_wf]. intros y x Hr. by apply Hm.
Qed.
