(* ===== verification/Storage.v ===== *)
(** * Storage: the ["blog-images"] bucket as the sources call it

    The storage client is a library that the sources only call, so this file
    models it from the spec (§6) and from the client's documented behaviour.
    [StorageClient] is the interface the sources program against: an
    abstraction function [objects] to the set of stored paths, and the three
    calls that change or read the bucket.  [StorageLaws] is its contract;
    [gset_bucket] implements it on a [gset] of paths and discharges it.
    Every call takes the network outcome as an [option string]: [Some m] is
    a request that fails with message [m] before reaching the bucket. *)

From S2P Require Import Prelude.

(** [{ data, error }] of a storage call. *)
Inductive sb_result (A : Type) : Type :=
  | SbOk (data : A)
  | SbErr (message : string).
Arguments SbOk {A} _.
Arguments SbErr {A} _.

(** [list] pages its results: [limit: 100, offset: 0, sortBy: name asc]. *)
Definition list_limit : nat := 100.

(** The error of [upload] with [upsert: false] on an existing path. *)
Definition duplicate_message : string := "The resource already exists".

(** The bucket's public URL prefix: [getPublicUrl] of the client
    [createClient(NEXT_PUBLIC_SUPABASE_URL, ..)]. *)
Definition public_prefix (supabase_url : string) : string :=
  supabase_url +:+ "/storage/v1/object/public/blog-images/".

(** [getPublicUrl(path).data.publicUrl]: the client [encodeURI]s it. *)
Definition getPublicUrl (supabase_url path : string) : string :=
  encodeURI (public_prefix supabase_url +:+ path).

(** [s] without the prefix [p], if [p] is one. *)
Fixpoint strip_prefix (p s : string) : option string :=
  match p, s with
  | EmptyString, _ => Some s
  | String.String a p', String.String b s' =>
      if bool_decide (a = b) then strip_prefix p' s' else None
  | _, _ => None
  end.

(** The name of path [q] in folder [pre], if it is an object of that
    folder (not of a sub-folder). *)
Definition name_in_folder (pre q : string) : option string :=
  match strip_prefix (pre +:+ "/") q with
  | Some n => if has_char "/"%char n then None else Some n
  | None => None
  end.

(** The names of the objects directly in folder [pre]. *)
Definition folder_names (pre : string) (S : gset string) : gset string :=
  list_to_set (omap (name_in_folder pre) (elements S)).

(** ** The interface *)
Class StorageClient (B : Type) := {
  objects : B → gset string;
  storage_upload : option string → string → B → sb_result string * B;
  storage_list : option string → string → B → sb_result (list string);
  storage_remove : option string → list string → B → sb_result unit * B;
}.

(** The contract of the bucket, stated on [objects]. *)
Class StorageLaws (B : Type) `{StorageClient B} := {
  upload_net_error m p (b : B) : storage_upload (Some m) p b = (SbErr m, b);
  upload_existing p (b : B) :
    p ∈ objects b → storage_upload None p b = (SbErr duplicate_message, b);
  upload_fresh p (b : B) :
    p ∉ objects b → ∃ b', storage_upload None p b = (SbOk p, b') ∧
                          objects b' = {[p]} ∪ objects b;
  remove_net_error m ps (b : B) : storage_remove (Some m) ps b = (SbErr m, b);
  remove_ok ps (b : B) : ∃ b', storage_remove None ps b = (SbOk tt, b') ∧
                         objects b' = objects b ∖ (list_to_set ps : gset string);
  list_net_error m pre (b : B) : storage_list (Some m) pre b = SbErr m;
  list_ok pre (b : B) : ∃ names, storage_list None pre b = SbOk names ∧
    NoDup names ∧ length names ≤ list_limit ∧
    (∀ n, n ∈ names → n ∈ folder_names pre (objects b)) ∧
    (size (folder_names pre (objects b)) ≤ list_limit →
       ∀ n, n ∈ folder_names pre (objects b) → n ∈ names)
}.

(** ** The implementation on a set of paths *)
Module GsetBucket.
Definition upload (net : option string) (p : string) (S : gset string)
    : sb_result string * gset string :=
  match net with
  | Some m => (SbErr m, S)
  | None => if bool_decide (p ∈ S) then (SbErr duplicate_message, S)
            else (SbOk p, {[p]} ∪ S)
  end.

Definition list (net : option string) (pre : string) (S : gset string)
    : sb_result (list string) :=
  match net with
  | Some m => SbErr m
  | None => SbOk (take list_limit (merge_sort String.le (elements (folder_names pre S))))
  end.

Definition remove (net : option string) (ps : Datatypes.list string) (S : gset string)
    : sb_result unit * gset string :=
  match net with
  | Some m => (SbErr m, S)
  | None => (SbOk tt, S ∖ list_to_set ps)
  end.
End GsetBucket.

#[export] Instance gset_bucket : StorageClient (gset string) := {
  objects S := S;
  storage_upload := GsetBucket.upload;
  storage_list := GsetBucket.list;
  storage_remove := GsetBucket.remove;
}.

Lemma merge_sort_elem (F : gset string) n :
  n ∈ merge_sort String.le (elements F) ↔ n ∈ F.
Proof. by rewrite (merge_sort_Permutation _ _), elem_of_elements. Qed.

Lemma merge_sort_length (F : gset string) :
  length (merge_sort String.le (elements F)) = size F.
Proof. by rewrite (merge_sort_Permutation _ _). Qed.

#[export] Instance gset_bucket_laws : StorageLaws (gset string).
Proof.
  split; try done.
  - intros p b Hp. cbn. unfold GsetBucket.upload. by rewrite bool_decide_true.
  - intros p b Hp. eexists. cbn. unfold GsetBucket.upload.
    rewrite bool_decide_false by done. done.
  - intros ps b. eexists. split; reflexivity.
  - intros pre b. eexists. split; [done|]. cbn.
    set (l := merge_sort String.le (elements (folder_names pre b))).
    split_and!.
    + eapply sublist_NoDup; [|apply sublist_take].
      unfold l. rewrite (merge_sort_Permutation _ _). apply NoDup_elements.
    + rewrite length_take. unfold list_limit. lia.
    + intros n Hn. apply (merge_sort_elem (folder_names pre b)).
      eapply elem_of_sublist; [exact Hn|apply sublist_take].
    + intros Hsz n Hn. rewrite take_ge by (unfold l; rewrite merge_sort_length; done).
      by apply merge_sort_elem.
Qed.

(** ** Folders *)

Lemma strip_prefix_Some p s r : strip_prefix p s = Some r ↔ s = p +:+ r.
Proof.
  revert s. induction p as [|a p IH]; intros s; [simpl; naive_solver|].
  destruct s as [|b s]; simpl; [split; [done|intros [=]]|].
  rewrite string_app_cons. case_bool_decide; subst.
  - rewrite IH. split; [by intros ->|by intros [=]].
  - split; [done|]. by intros [= ? _].
Qed.

Lemma elem_of_folder_names pre S n :
  n ∈ folder_names pre S ↔ pre +/+ n ∈ S ∧ has_char "/"%char n = false.
Proof.
  unfold folder_names. rewrite elem_of_list_to_set, list_elem_of_omap.
  split.
  - intros (q & Hq%elem_of_elements & Hn). unfold name_in_folder in Hn.
    destruct (strip_prefix _ q) as [r|] eqn:Hs; [|done].
    apply strip_prefix_Some in Hs. rewrite string_app_assoc in Hs.
    destruct (has_char _ r) eqn:Hr; simplify_eq. done.
  - intros [Hin Hn]. exists (pre +/+ n). split; [by apply elem_of_elements|].
    unfold name_in_folder.
    assert (strip_prefix (pre +:+ "/") (pre +/+ n) = Some n) as ->
      by (apply strip_prefix_Some; by rewrite string_app_assoc).
    by rewrite Hn.
Qed.

Lemma name_in_folder_join pre n :
  has_char "/"%char n = false → name_in_folder pre (pre +/+ n) = Some n.
Proof.
  intros Hn. unfold name_in_folder.
  assert (strip_prefix (pre +:+ "/") (pre +/+ n) = Some n) as ->
    by (apply strip_prefix_Some; by rewrite string_app_assoc).
  by rewrite Hn.
Qed.

Lemma name_in_folder_Some pre q n :
  name_in_folder pre q = Some n → q = pre +/+ n ∧ has_char "/"%char n = false.
Proof.
  unfold name_in_folder. destruct (strip_prefix _ q) as [r|] eqn:Hs; [|done].
  apply strip_prefix_Some in Hs. rewrite string_app_assoc in Hs.
  destruct (has_char _ r) eqn:Hr; intros; simplify_eq. done.
Qed.

(** The public URL of a path made of URL-safe segments is not re-encoded. *)
Lemma getPublicUrl_plain supabase_url dir n :
  all_chars uri_unescaped supabase_url = true →
  all_chars url_safe_char dir = true → all_chars url_safe_char n = true →
  getPublicUrl supabase_url (dir +/+ n) =
    supabase_url +:+ "/storage/v1/object/public/blog-images/" +:+ dir +/+ n.
Proof.
  intros Hu Hd Hn. unfold getPublicUrl, public_prefix.
  rewrite !encodeURI_app, string_app_assoc, encodeURI_id by done.
  rewrite (encodeURI_id dir) by auto with blog.
  change (encodeURI (String.String "/"%char n)) with ("/" +:+ encodeURI n).
  rewrite (encodeURI_id n) by auto with blog. done.
Qed.
