(* ===== verification/ImageUpload.v ===== *)
(** * ImageUpload: [src/lib/utils/image-upload.ts]

    [uploadImage] validates a file (MIME type, then size), derives the path
    ["<userId>/<Date.now()>-<token>.<ext>"], uploads it without overwrite and
    returns the public URL; [deleteImage] parses a public URL, keeps its last
    path segment and removes ["<userId>/<segment>"].  Both are written
    against the [StorageClient] interface, in a Section whose [Context] is the
    client and its laws; [supabase_url] is [NEXT_PUBLIC_SUPABASE_URL]. *)

From S2P Require Import Prelude Storage.

(** A browser [File]: [name], [type] and [size] (bytes). *)
Record File := mkFile { file_name : string; file_type : string; file_size : Z }.

(** [interface UploadResult { success; url?; error? }] *)
Record UploadResult := mkUploadResult {
  success : bool;
  url : option string;
  error : option string
}.

(** [5 * 1024 * 1024] *)
Definition max_image_size : Z := 5 * 1024 * 1024.

Definition type_error_message : string := "Please upload only image files.".
Definition size_error_message : string := "Please upload images smaller than 5MB.".

(** [file.name.split(".").pop()], as the template prints it ([undefined]
    would print as ["undefined"]; [split] never returns an empty array). *)
Definition fileExt (name : string) : string :=
  match Js.pop (Js.split "."%char name) with Some e => e | None => "undefined" end.

(** [`${userId}/${Date.now()}-${token}.${fileExt}`] where [token] is
    [Math.random().toString(36).substring(2)]. *)
Definition uniqueFileName (userId : string) (now : N) (token ext : string) : string :=
  userId +/+ (pretty now +:+ "-" +:+ token +:+ "." +:+ ext).

(** [pathParts[pathParts.length - 1]] for [pathParts = pathname.split("/")]. *)
Definition lastPathPart (pathname : string) : string :=
  match Js.pop (Js.split "/"%char pathname) with Some f => f | None => "undefined" end.

Section WithStorage.
Context {B : Type} `{StorageClient B}.
Variable supabase_url : string.

(** [uploadImage(file, userId)]; [net] is the outcome of the upload
    request, [now] the clock and [token] the random suffix. *)
Definition uploadImage (net : option string) (now : N) (token : string)
    (file : File) (userId : string) (b : B) : UploadResult * B :=
  if negb (Js.startsWith (file_type file) "image/") then
    (mkUploadResult false None (Some type_error_message), b)
  else if bool_decide (file_size file > max_image_size)%Z then
    (mkUploadResult false None (Some size_error_message), b)
  else
    let fileName := uniqueFileName userId now token (fileExt (file_name file)) in
    match storage_upload net fileName b with
    | (SbErr msg, b') => (mkUploadResult false None (Some msg), b')
    | (SbOk path, b') =>
        (mkUploadResult true (Some (getPublicUrl supabase_url path)) None, b')
    end.

(** [deleteImage(imageUrl, userId)]: [new URL] throwing is caught and
    answered with [false]. *)
Definition deleteImage (net : option string) (imageUrl userId : string) (b : B) : bool * B :=
  match url_pathname imageUrl with
  | None => (false, b)
  | Some pathname =>
      let filePath := userId +/+ lastPathPart pathname in
      match storage_remove net [filePath] b with
      | (SbErr _, b') => (false, b')
      | (SbOk _, b') => (true, b')
      end
  end.
End WithStorage.

(** ** Properties *)

(** The piece of the path after ["<userId>/"]. *)
Definition uploadName (now : N) (token ext : string) : string :=
  pretty now +:+ "-" +:+ token +:+ "." +:+ ext.

Lemma uniqueFileName_split userId now token ext :
  uniqueFileName userId now token ext = userId +/+ uploadName now token ext.
Proof. reflexivity. Qed.

(** [fileExt] takes its characters from the file name. *)
Lemma fileExt_chars p name :
  all_chars p name = true → all_chars p (fileExt name) = true.
Proof.
  intros Hn. unfold fileExt. destruct (Js.pop _) eqn:E.
  - by eapply pop_split_all_chars.
  - apply last_None in E. by destruct (split_nonempty "."%char name).
Qed.

Lemma lastPathPart_no_slash pathname : has_char "/"%char (lastPathPart pathname) = false.
Proof.
  unfold lastPathPart. destruct (Js.pop _) eqn:E; [by eapply pop_split_no_sep|done].
Qed.

(** A name made of URL-safe characters gives a URL-safe upload name. *)
Lemma uploadName_url_safe now token name :
  all_chars url_safe_char token = true → all_chars url_safe_char name = true →
  all_chars url_safe_char (uploadName now token (fileExt name)) = true.
Proof.
  intros Ht Hn. unfold uploadName. rewrite !all_chars_app, Ht.
  rewrite (fileExt_chars url_safe_char name Hn).
  rewrite (all_chars_impl is_digit url_safe_char) by (auto using digit_url_safe, pretty_N_digits).
  done.
Qed.

(** A file that passes both checks of [uploadImage]. *)
Definition valid_file (f : File) : Prop :=
  Js.startsWith (file_type f) "image/" = true ∧ (file_size f ≤ max_image_size)%Z.

Section Laws.
Context {B : Type} `{StorageLaws B}.
Variable supabase_url : string.

Lemma uploadImage_valid net now token f userId (b : B) :
  valid_file f →
  uploadImage supabase_url net now token f userId b =
    match storage_upload net (uniqueFileName userId now token (fileExt (file_name f))) b with
    | (SbErr msg, b') => (mkUploadResult false None (Some msg), b')
    | (SbOk path, b') => (mkUploadResult true (Some (getPublicUrl supabase_url path)) None, b')
    end.
Proof.
  intros [Ht Hs]. unfold uploadImage. rewrite Ht. simpl.
  rewrite bool_decide_false by lia. done.
Qed.
(** [deleteImage] on the public URL of ["<userId>/<n>"] removes that path. *)
Lemma deleteImage_publicUrl userId n (b : B) :
  origin_ok supabase_url → all_chars uri_unescaped supabase_url = true →
  all_chars url_safe_char userId = true → all_chars url_safe_char n = true →
  ∃ b', deleteImage None (getPublicUrl supabase_url (userId +/+ n)) userId b = (true, b') ∧
        objects b' = objects b ∖ {[ (userId +/+ n) ]}.
Proof.
  intros Ho Hu Hd Hn. unfold deleteImage.
  rewrite getPublicUrl_plain by done.
  set (lit := "/storage/v1/object/public/blog-images/").
  assert (all_chars (negb ∘ path_stop) (lit +:+ userId +/+ n) = true) as Hp.
  { rewrite !all_chars_app. simpl. rewrite !url_safe_no_path_stop_all by done. done. }
  rewrite url_pathname_origin by (done || (unfold lit; rewrite string_app_cons; done)).
  unfold lastPathPart. rewrite <- string_app_assoc, last_split_app_sep.
  rewrite last_split_no_char by auto with blog.
  destruct (remove_ok [userId +/+ n] b) as (b' & -> & Hb').
  exists b'. split; [done|]. rewrite Hb'. set_solver.
Qed.

(** A file that fails a check gets a failure and leaves the store as it was. *)
Lemma uploadImage_invalid net now token f userId (b : B) :
  ¬ valid_file f →
  ∃ msg, uploadImage supabase_url net now token f userId b = (mkUploadResult false None (Some msg), b).
Proof.
  unfold valid_file, uploadImage. intros Hv.
  destruct (Js.startsWith _ _); simpl; [|eauto].
  case_bool_decide; [eauto|]. exfalso. apply Hv. split; [done|lia].
Qed.

(** Every outcome of [uploadImage] on a valid file: a success stores
    exactly its fresh path and returns that path's public URL; a failure
    leaves the store as it was. *)
Lemma uploadImage_outcome net now token f userId (b b' : B) r :
  valid_file f → uploadImage supabase_url net now token f userId b = (r, b') →
  let p := uniqueFileName userId now token (fileExt (file_name f)) in
  (success r = true ∧ net = None ∧ p ∉ objects b ∧
     url r = Some (getPublicUrl supabase_url p) ∧ objects b' = {[p]} ∪ objects b) ∨
  (success r = false ∧ url r = None ∧ b' = b).
Proof.
  intros Hv Hr p. rewrite uploadImage_valid in Hr by done. fold p in Hr.
  destruct net as [m|].
  { rewrite upload_net_error in Hr. simplify_eq. by right. }
  destruct (decide (p ∈ objects b)) as [Hp|Hp].
  - rewrite upload_existing in Hr by done. simplify_eq. by right.
  - destruct (upload_fresh p b Hp) as (b1 & Hup & Hb1). rewrite Hup in Hr.
    simplify_eq. by left.
Qed.

(** C3: a file whose MIME type does not start with ["image/"] is refused
    with the type message before any request: the result is the same
    whatever the network does, and the store is unchanged. *)
Theorem uploadImage_invalid_type net now token f userId (b : B) :
  Js.startsWith (file_type f) "image/" = false →
  uploadImage supabase_url net now token f userId b =
    (mkUploadResult false None (Some type_error_message), b).
Proof. intros Ht. unfold uploadImage. by rewrite Ht. Qed.

(** C4: an image file of more than 5 MiB (5 * 1024 * 1024 bytes) is refused
    with the size message before any request; the store is unchanged. *)
Theorem uploadImage_too_large net now token f userId (b : B) :
  Js.startsWith (file_type f) "image/" = true → (file_size f > 5 * 1024 * 1024)%Z →
  uploadImage supabase_url net now token f userId b =
    (mkUploadResult false None (Some size_error_message), b).
Proof. intros Ht Hs. unfold uploadImage. rewrite Ht. simpl. by rewrite bool_decide_true by (unfold max_image_size; lia). Qed.

(** C5: a valid file (image type, at most 5 MiB: the bound is inclusive)
    whose derived path is free is stored at exactly that path, and the
    result is a success carrying the path's public URL. *)
Theorem uploadImage_stores_fresh now token f userId (b : B) :
  valid_file f →
  let p := uniqueFileName userId now token (fileExt (file_name f)) in
  p ∉ objects b →
  ∃ b', uploadImage supabase_url None now token f userId b =
          (mkUploadResult true (Some (getPublicUrl supabase_url p)) None, b') ∧
        objects b' = {[p]} ∪ objects b.
Proof.
  intros Hv p Hp. rewrite uploadImage_valid by done. fold p.
  destruct (upload_fresh p b Hp) as (b' & -> & Hb'). eauto.
Qed.


(** C7: round trip.  After a successful upload of a file whose name,
    user id and token are URL-safe, [deleteImage] of the returned URL by
    the same user succeeds and restores the store to what it was before
    the upload. *)
Theorem upload_then_delete_restores now token f userId (b b' : B) r :
  origin_ok supabase_url → all_chars uri_unescaped supabase_url = true →
  all_chars url_safe_char userId = true → all_chars url_safe_char token = true →
  all_chars url_safe_char (file_name f) = true →
  valid_file f →
  uploadImage supabase_url None now token f userId b = (r, b') → success r = true →
  ∃ u b'', url r = Some u ∧ deleteImage None u userId b' = (true, b'') ∧
           objects b'' = objects b.
Proof.
  intros Ho Hu Hd Ht Hn Hv Hr Hs.
  destruct (uploadImage_outcome _ _ _ _ _ _ _ _ Hv Hr)
    as [(_ & _ & Hfresh & Hurl & Hb')|(Hf & _)]; [|congruence].
  rewrite uniqueFileName_split in *.
  destruct (deleteImage_publicUrl userId (uploadName now token (fileExt (file_name f))) b')
    as (b'' & Hdel & Hb''); auto using uploadName_url_safe.
  exists (getPublicUrl supabase_url (userId +/+ uploadName now token (fileExt (file_name f)))), b''.
  split_and!; [done|done|]. rewrite Hb'', Hb'. set_solver.
Qed.

(** C8: [deleteImage] only ever removes an object of the caller's own
    folder, a path ["<userId>/<name>"] with no further ["/"], whatever
    URL it is given and whatever the network does. *)
Theorem deleteImage_owner_scoped net imageUrl userId (b b' : B) ok :
  deleteImage net imageUrl userId b = (ok, b') →
  ∀ p, p ∈ objects b → p ∉ objects b' →
  ∃ n, p = userId +/+ n ∧ has_char "/"%char n = false.
Proof.
  unfold deleteImage. intros Hd p Hin Hout.
  destruct (url_pathname imageUrl) as [path|]; [|by simplify_eq].
  destruct net as [m|].
  { rewrite remove_net_error in Hd. by simplify_eq. }
  destruct (remove_ok [userId +/+ lastPathPart path] b) as (b1 & Hr & Hb1).
  rewrite Hr in Hd. simplify_eq. rewrite Hb1 in Hout.
  exists (lastPathPart path). split; [|apply lastPathPart_no_slash].
  destruct (decide (p = userId +/+ lastPathPart path)) as [|Hne]; [done|].
  exfalso. apply Hout, elem_of_difference. split; [done|].
  rewrite elem_of_list_to_set, list_elem_of_singleton. done.
Qed.
End Laws.

(** ** Witnesses on concrete inputs *)

Definition demo_url : string := "https://abc.supabase.co".
Definition cat_png : File := mkFile "cat.png" "image/png" 2000000.
Definition dog_png : File := mkFile "dog.png" "image/png" 6000000.
Definition notes_txt : File := mkFile "notes.txt" "text/plain" 10.

Lemma demo_url_origin : origin_ok demo_url.
Proof. exists "h"%char, "ttps", "abc.supabase.co". by split_and!. Qed.

Lemma cat_png_valid : valid_file cat_png.
Proof. split; [reflexivity|]. unfold max_image_size. simpl. lia. Qed.

Lemma uploadImage_invalid_type_witness :
  uploadImage demo_url None 1714000000000 "k3x9" notes_txt "u1" (∅ : gset string) =
    (mkUploadResult false None (Some type_error_message), ∅).
Proof. apply uploadImage_invalid_type. reflexivity. Defined.

Lemma uploadImage_too_large_witness :
  uploadImage demo_url None 1714000000000 "k3x9" dog_png "u1" (∅ : gset string) =
    (mkUploadResult false None (Some size_error_message), ∅).
Proof. apply uploadImage_too_large; [reflexivity|unfold max_image_size; simpl; lia]. Defined.

Lemma uploadImage_stores_fresh_witness :
  ∃ b', uploadImage demo_url None 1714000000000 "k3x9" cat_png "u1" (∅ : gset string) =
          (mkUploadResult true (Some "https://abc.supabase.co/storage/v1/object/public/blog-images/u1/1714000000000-k3x9.png") None, b') ∧
        objects b' = {["u1/1714000000000-k3x9.png"]} ∪ objects (∅ : gset string).
Proof. apply (uploadImage_stores_fresh demo_url); [exact cat_png_valid|set_solver]. Defined.


Definition cat_upload : UploadResult * gset string :=
  uploadImage demo_url None 1714000000000 "k3x9" cat_png "u1" ∅.

Lemma upload_then_delete_restores_witness :
  ∃ u b'', url cat_upload.1 = Some u ∧ deleteImage None u "u1" cat_upload.2 = (true, b'') ∧
           objects b'' = objects (∅ : gset string).
Proof.
  apply (upload_then_delete_restores demo_url 1714000000000 "k3x9" cat_png "u1");
    [exact demo_url_origin|reflexivity|reflexivity|reflexivity|reflexivity|exact cat_png_valid
    |reflexivity|reflexivity].
Defined.

Definition two_users : gset string := {["u1/a.png"; "u2/a.png"]}.
Definition foreign_url : string :=
  "https://abc.supabase.co/storage/v1/object/public/blog-images/u2/a.png".

(** The URL names user u2's object; user u1's call removes u1's own. *)
Lemma deleteImage_owner_scoped_witness :
  "u1/a.png" ∈ objects two_users ∧
  "u1/a.png" ∉ objects (deleteImage None foreign_url "u1" two_users).2 ∧
  ∃ n, "u1/a.png" = ("u1" +/+ n) ∧ has_char "/"%char n = false.
Proof.
  assert ("u1/a.png" ∈ objects two_users) as Hin by (vm_compute; set_solver).
  assert ("u1/a.png" ∉ objects (deleteImage None foreign_url "u1" two_users).2) as Hout
    by (vm_compute; set_solver).
  split_and!; [exact Hin|exact Hout|].
  exact (deleteImage_owner_scoped None foreign_url "u1" two_users _
           (deleteImage None foreign_url "u1" two_users).1 eq_refl "u1/a.png" Hin Hout).
Defined.
