(* ===== verification/ImageCleanup.v ===== *)
(** * ImageCleanup: [src/lib/utils/image-cleanup.ts]

    [cleanupUnusedImages(userId, usedImageUrls)] lists the user's folder,
    keeps the names whose canonical URL is not in [usedImageUrls], and
    removes those paths in one call.  It returns nothing and logs its
    outcome; the log is the [CleanupLog] it returns here.  The two requests
    take their network outcomes [netList] and [netRemove].  The theorems are
    proved against [StorageLaws]; the paging counterexample and the
    encoding counterexample run on the [gset] bucket. *)

From S2P Require Import Prelude Storage ImageUpload.

(** What the function logs. *)
Inductive CleanupLog :=
  | ListError (msg : string)      (** ["Error listing files:"] *)
  | NothingUnused                 (** no branch taken, nothing logged *)
  | Cleaned (count : nat)         (** ["Cleaned up <n> unused images"] *)
  | DeleteError (msg : string).   (** ["Error deleting unused files:"] *)

#[export] Instance CleanupLog_eq_dec : EqDecision CleanupLog.
Proof. solve_decision. Defined.

Section WithStorage.
Context {B : Type} `{StorageClient B}.
Variable supabase_url : string.

(** [`${NEXT_PUBLIC_SUPABASE_URL}/storage/v1/object/public/blog-images/${userId}/${file.name}`] *)
Definition fileUrl (userId name : string) : string :=
  public_prefix supabase_url +:+ userId +/+ name.

(** [files.filter((file) => !usedImageUrls.includes(fileUrl))] *)
Definition unusedFiles (userId : string) (usedImageUrls files : list string) : list string :=
  filter (λ name, Js.arr_includes usedImageUrls (fileUrl userId name) = false) files.

Definition cleanupUnusedImages (netList netRemove : option string) (userId : string)
    (usedImageUrls : list string) (b : B) : CleanupLog * B :=
  match storage_list netList userId b with
  | SbErr msg => (ListError msg, b)
  | SbOk files =>
      let unused := unusedFiles userId usedImageUrls files in
      if bool_decide (0 < length unused) then
        let filePaths := (λ name, userId +/+ name) <$> unused in
        match storage_remove netRemove filePaths b with
        | (SbErr msg, b') => (DeleteError msg, b')
        | (SbOk _, b') => (Cleaned (length unused), b')
        end
      else (NothingUnused, b)
  end.
End WithStorage.

(** ** Properties *)

Section Laws.
Context {B : Type} `{StorageLaws B}.
Variable supabase_url : string.

(** An orphan of folder [u] in the path set [S]: an object of the folder
    whose canonical URL is not among the used URLs. *)
Definition orphan_path (u : string) (used : list string) (S : gset string) (p : string) : Prop :=
  ∃ n, p = u +/+ n ∧ n ∈ folder_names u S ∧ fileUrl supabase_url u n ∉ used.

(** The paths [cleanupUnusedImages] removes, given the listed names. *)
Definition removed_paths (u : string) (used names : list string) : gset string :=
  list_to_set ((λ n, u +/+ n) <$> unusedFiles supabase_url u used names).

Lemma elem_of_unusedFiles u used names n :
  n ∈ unusedFiles supabase_url u used names ↔ n ∈ names ∧ fileUrl supabase_url u n ∉ used.
Proof.
  unfold unusedFiles, Js.arr_includes. rewrite list_elem_of_filter, bool_decide_eq_false.
  naive_solver.
Qed.

Lemma elem_of_removed_paths u used names p :
  p ∈ removed_paths u used names ↔
  ∃ n, p = u +/+ n ∧ n ∈ names ∧ fileUrl supabase_url u n ∉ used.
Proof.
  unfold removed_paths. rewrite elem_of_list_to_set, list_elem_of_fmap.
  setoid_rewrite elem_of_unusedFiles. naive_solver.
Qed.

(** What a successful listing tells about its names. *)
Lemma listed_names nl u (b : B) names :
  storage_list nl u b = SbOk names →
  nl = None ∧ (∀ n, n ∈ names → n ∈ folder_names u (objects b)) ∧
  (size (folder_names u (objects b)) ≤ list_limit →
     ∀ n, n ∈ folder_names u (objects b) → n ∈ names).
Proof.
  destruct nl as [m|]; [by rewrite list_net_error|].
  destruct (list_ok u b) as (names' & Hl & _ & _ & Hsub & Hall).
  rewrite Hl. intros [= <-]. done.
Qed.

(** Every run, whatever its faults, either changes nothing or removes
    exactly the unused listed paths. *)
Lemma cleanup_cases nl nr u used (b b' : B) log :
  cleanupUnusedImages supabase_url nl nr u used b = (log, b') →
  objects b' = objects b ∨
  ∃ names, storage_list nl u b = SbOk names ∧
           objects b' = objects b ∖ removed_paths u used names.
Proof.
  unfold cleanupUnusedImages. destruct (storage_list nl u b) as [names|m] eqn:Hl;
    [|intros; simplify_eq; by left].
  case_bool_decide; [|intros; simplify_eq; by left].
  destruct nr as [m|].
  - rewrite remove_net_error. intros; simplify_eq. by left.
  - destruct (remove_ok ((λ n, u +/+ n) <$> unusedFiles supabase_url u used names) b)
      as (b1 & -> & Hb1).
    intros; simplify_eq. right. by exists names.
Qed.

(** Without faults the run removes the unused listed paths and logs how
    many there were. *)
Lemma cleanup_ok_effect u used (b b' : B) log :
  cleanupUnusedImages supabase_url None None u used b = (log, b') →
  ∃ names, storage_list None u b = SbOk names ∧
    objects b' = objects b ∖ removed_paths u used names ∧
    log = (if bool_decide (0 < length (unusedFiles supabase_url u used names))
           then Cleaned (length (unusedFiles supabase_url u used names)) else NothingUnused).
Proof.
  unfold cleanupUnusedImages. intros Hc. destruct (list_ok u b) as (names & Hl & _).
  rewrite Hl in Hc. exists names. split; [done|].
  case_bool_decide as Hlen.
  - destruct (remove_ok ((λ n, u +/+ n) <$> unusedFiles supabase_url u used names) b)
      as (b1 & Hr & Hb1). rewrite Hr in Hc. simplify_eq. done.
  - simplify_eq. split; [|done].
    destruct (unusedFiles supabase_url u used names) eqn:E; [|simpl in Hlen; lia].
    unfold removed_paths. rewrite E. set_solver.
Qed.

Lemma cleanup_objects_exact u used (b b' : B) log :
  size (folder_names u (objects b)) ≤ list_limit →
  cleanupUnusedImages supabase_url None None u used b = (log, b') →
  ∀ p, p ∈ objects b' ↔ p ∈ objects b ∧ ¬ orphan_path u used (objects b) p.
Proof.
  intros Hsz Hc p. destruct (cleanup_ok_effect _ _ _ _ _ Hc) as (names & Hl & Hb' & _).
  apply listed_names in Hl as (_ & Hsub & Hall). specialize (Hall Hsz).
  rewrite Hb', elem_of_difference, elem_of_removed_paths. unfold orphan_path.
  naive_solver.
Qed.

Lemma cleanup_removed_orphan nl nr u used (b b' : B) log :
  cleanupUnusedImages supabase_url nl nr u used b = (log, b') →
  ∀ p, p ∈ objects b → p ∉ objects b' → orphan_path u used (objects b) p.
Proof.
  intros Hc p Hin Hout.
  destruct (cleanup_cases _ _ _ _ _ _ _ Hc) as [Hb|(names & Hl & Hb)]; [by rewrite Hb in Hout|].
  apply listed_names in Hl as (_ & Hsub & _).
  assert (p ∈ removed_paths u used names) as (n & -> & Hn & Hu)%elem_of_removed_paths.
  { rewrite Hb, elem_of_difference in Hout.
    destruct (decide (p ∈ removed_paths u used names)); [done|]. by destruct Hout. }
  exists n. eauto.
Qed.

(** C1: safety of the cleanup.  Whatever the network does, every object
    a run removes is an orphan: a direct object ["<userId>/<n>"] of the
    user's own folder whose canonical URL is not among the used URLs.  So
    an image whose URL is listed as used is never deleted, and no other
    user's object is touched. *)
Theorem cleanup_only_removes_orphans nl nr u used (b b' : B) log :
  cleanupUnusedImages supabase_url nl nr u used b = (log, b') →
  ∀ p, p ∈ objects b → p ∉ objects b' → orphan_path u used (objects b) p.
Proof. apply cleanup_removed_orphan. Qed.

(** C2: when the user's folder fits in one listing page (at most 100
    objects) and no request fails, a run removes exactly the orphans of
    the folder and keeps every other object. *)
Theorem cleanup_removes_exactly_orphans u used (b b' : B) log :
  size (folder_names u (objects b)) ≤ list_limit →
  cleanupUnusedImages supabase_url None None u used b = (log, b') →
  ∀ p, p ∈ objects b' ↔ p ∈ objects b ∧ ¬ orphan_path u used (objects b) p.
Proof. apply cleanup_objects_exact. Qed.

(** C9: idempotence.  When the folder fits in one page, a second run with
    the same used URLs finds nothing unused and changes nothing. *)
Theorem cleanup_idempotent u used (b b1 : B) log :
  size (folder_names u (objects b)) ≤ list_limit →
  cleanupUnusedImages supabase_url None None u used b = (log, b1) →
  cleanupUnusedImages supabase_url None None u used b1 = (NothingUnused, b1).
Proof.
  intros Hsz Hc. unfold cleanupUnusedImages at 1.
  destruct (list_ok u b1) as (names & Hl & _ & _ & Hsub & _). rewrite Hl.
  destruct (unusedFiles supabase_url u used names) as [|n rest] eqn:E; [done|].
  exfalso. assert (n ∈ unusedFiles supabase_url u used names) as [Hn Hu]%elem_of_unusedFiles
    by (rewrite E; left).
  apply Hsub, elem_of_folder_names in Hn as [Hp Hs].
  apply (cleanup_objects_exact _ _ _ _ _ Hsz Hc) in Hp as [Hp Horph].
  apply Horph. exists n. by rewrite elem_of_folder_names.
Qed.
End Laws.

(** ** Concrete runs *)

(** 101 unused objects in folder ["u1"]. *)
Definition many_images : gset string :=
  list_to_set ((λ i : nat, "u1/img" +:+ pretty i +:+ ".png") <$> seq 0 101).

Definition paged_first : CleanupLog * gset string :=
  cleanupUnusedImages demo_url None None "u1" [] many_images.


(** A picture whose name has a space and no dot: its "extension" is the
    whole name, and the public URL the upload returns is percent-encoded. *)
Definition spaced_jpg : File := mkFile "my cat" "image/jpeg" 1000.

Definition spaced_upload : UploadResult * gset string :=
  uploadImage demo_url None 1714000000000 "k3x9" spaced_jpg "u1" ∅.

Definition spaced_url : string :=
  "https://abc.supabase.co/storage/v1/object/public/blog-images/u1/1714000000000-k3x9.my%20cat".


(** The spec's reachability example (§8): stored objects a, b, c, d and
    used URLs of a, b and c. *)
Definition abcd : gset string := {["u1/a.png"; "u1/b.png"; "u1/c.png"; "u1/d.png"]}.
Definition abc_used : list string :=
  fileUrl demo_url "u1" <$> ["a.png"; "b.png"; "c.png"].

Definition abcd_run : CleanupLog * gset string :=
  cleanupUnusedImages demo_url None None "u1" abc_used abcd.

Example abcd_run_deletes_d : abcd_run = (Cleaned 1, {["u1/a.png"; "u1/b.png"; "u1/c.png"]}).
Proof. vm_compute. reflexivity. Qed.

Lemma cleanup_only_removes_orphans_witness :
  "u1/d.png" ∈ objects abcd ∧ "u1/d.png" ∉ objects abcd_run.2 ∧
  orphan_path demo_url "u1" abc_used (objects abcd) "u1/d.png".
Proof.
  assert ("u1/d.png" ∈ objects abcd) as Hin by (vm_compute; set_solver).
  assert ("u1/d.png" ∉ objects abcd_run.2) as Hout by (vm_compute; set_solver).
  split_and!; [exact Hin|exact Hout|].
  exact (cleanup_only_removes_orphans demo_url None None "u1" abc_used abcd _ abcd_run.1
           eq_refl "u1/d.png" Hin Hout).
Defined.

Lemma cleanup_removes_exactly_orphans_witness :
  "u1/a.png" ∈ objects abcd_run.2 ↔
  "u1/a.png" ∈ objects abcd ∧ ¬ orphan_path demo_url "u1" abc_used (objects abcd) "u1/a.png".
Proof.
  apply (cleanup_removes_exactly_orphans demo_url "u1" abc_used abcd _ abcd_run.1);
    [vm_compute; lia|reflexivity].
Defined.

Lemma cleanup_idempotent_witness :
  cleanupUnusedImages demo_url None None "u1" abc_used abcd_run.2 = (NothingUnused, abcd_run.2).
Proof.
  apply (cleanup_idempotent demo_url "u1" abc_used abcd _ abcd_run.1);
    [vm_compute; lia|reflexivity].
Defined.
