(* ===== verification/Tracker.v ===== *)
(** * Tracker: the editor's image state ([src/components/blog/post-form.tsx])

    [PostForm] keeps [images] and [featuredImage] in React state.  A setter
    call does not change the state at once: it enqueues an update, and the
    next render applies the queue in order, a functional update
    ([setImages((prev) => ..)]) to the latest queued value and a plain one
    ([setFeaturedImage(v)]) by overwriting it.  A handler reads [images] and
    [featuredImage] from the closure of the render that created it: its
    snapshot.  [handleImageAdd] and [handleImageRemove] are modelled as the
    list of updates they enqueue given their snapshot; [render] applies a
    queue.  Two disciplines of calls are studied: [fresh_step], where each
    handler comes from the latest render (one user action at a time), and
    the concurrent callbacks of one upload batch or of two quick removals,
    which share one older snapshot. *)

From S2P Require Import Prelude.

(** The two state variables the handlers touch. *)
Record EditorImages := mkEditorImages {
  images : list string;
  featuredImage : string
}.

(** A queued state update. *)
Inductive Update :=
  | SetImages (f : list string → list string)   (** [setImages((prev) => f(prev))] *)
  | SetFeaturedImage (v : string).              (** [setFeaturedImage(v)] *)

Definition apply_update (st : EditorImages) (u : Update) : EditorImages :=
  match u with
  | SetImages f => mkEditorImages (f (images st)) (featuredImage st)
  | SetFeaturedImage v => mkEditorImages (images st) v
  end.

(** The next render: the queued updates applied in order. *)
Definition render (st : EditorImages) (q : list Update) : EditorImages :=
  foldl apply_update st q.

(** [remainingImages.length > 0 ? remainingImages[0] : ""] *)
Definition first_or_empty (l : list string) : string :=
  match l with x :: _ => x | [] => "" end.

(** The guard of [handleImageAdd]: [!featuredImage && images.length === 0]. *)
Definition add_sets_featured (snap : EditorImages) : bool :=
  Js.falsy (featuredImage snap) && bool_decide (length (images snap) = 0).

(** [handleImageAdd], created in the render [snap]. *)
Definition handleImageAdd (snap : EditorImages) (imageUrl : string) : list Update :=
  SetImages (λ prev, prev ++ [imageUrl]) ::
  (if add_sets_featured snap then [SetFeaturedImage imageUrl] else []).

(** [handleImageRemove], created in the render [snap]. *)
Definition handleImageRemove (snap : EditorImages) (imageUrl : string) : list Update :=
  SetImages (Js.filter_ne imageUrl) ::
  (if bool_decide (featuredImage snap = imageUrl) then
     let remainingImages := Js.filter_ne imageUrl (images snap) in
     [SetFeaturedImage (first_or_empty remainingImages)]
   else []).

(** A user action on the tracker. *)
Inductive TrackerEvent :=
  | AddImage (url : string)
  | RemoveImage (url : string).

Definition handler (snap : EditorImages) (e : TrackerEvent) : list Update :=
  match e with
  | AddImage u => handleImageAdd snap u
  | RemoveImage u => handleImageRemove snap u
  end.

(** The editor of a new post ([useState(post?.images || [])] and
    [useState(post?.featured_image || "")] with no post). *)
Definition empty_editor : EditorImages := mkEditorImages [] "".

(** The spec's Image Reference Tracker (§4.2), as an abstract state
    machine over the same state: [add(url)] appends and makes [url]
    featured when the tracker was empty with no featured image;
    [remove(url)] removes every occurrence and, when [url] was featured,
    makes the new first element featured, or clears it. *)
Module TrackerSpec.
Definition add (url : string) (st : EditorImages) : EditorImages :=
  mkEditorImages (images st ++ [url])
    (if bool_decide (images st = [] ∧ featuredImage st = "") then url else featuredImage st).

Definition remove (url : string) (st : EditorImages) : EditorImages :=
  let rest := filter (λ x, x ≠ url) (images st) in
  mkEditorImages rest
    (if bool_decide (featuredImage st = url)
     then match rest with x :: _ => x | [] => "" end
     else featuredImage st).

Definition step (st : EditorImages) (e : TrackerEvent) : EditorImages :=
  match e with AddImage u => add u st | RemoveImage u => remove u st end.
End TrackerSpec.

(** One action handled by the handler of the latest render. *)
Inductive fresh_step : EditorImages → EditorImages → Prop :=
  | fresh_step_intro st e : fresh_step st (render st (handler st e)).

(** Callbacks that all come from the render [snap], completing in the
    order of [es]; renders in between do not matter (see [render_app]). *)
Definition run_from (snap st : EditorImages) (es : list TrackerEvent) : EditorImages :=
  render st (concat (handler snap <$> es)).

(** One action at a time, each from the latest render. *)
Definition fresh_run (st : EditorImages) (es : list TrackerEvent) : EditorImages :=
  foldl (λ st e, render st (handler st e)) st es.

(** The steps that keep the featured image among the images: fresh actions,
    and [onImageAdd] callbacks of any render (an upload batch). *)
Inductive tracked_step : EditorImages → EditorImages → Prop :=
  | tracked_fresh st st' : fresh_step st st' → tracked_step st st'
  | tracked_batch_add snap st u : tracked_step st (render st (handleImageAdd snap u)).

(** The featured image is the first image, [""] when there is none. *)
Definition featured_first (st : EditorImages) : Prop :=
  featuredImage st = first_or_empty (images st).

(** The featured image is empty or one of the images. *)
Definition featured_tracked (st : EditorImages) : Prop :=
  featuredImage st = "" ∨ featuredImage st ∈ images st.

(** ** Lemmas on the update queue *)

Lemma render_app st q1 q2 : render st (q1 ++ q2) = render (render st q1) q2.
Proof. apply foldl_app. Qed.

Lemma render_add st snap u :
  render st (handleImageAdd snap u) =
  mkEditorImages (images st ++ [u])
    (if add_sets_featured snap then u else featuredImage st).
Proof. unfold handleImageAdd. by destruct (add_sets_featured snap). Qed.

Lemma render_remove st snap u :
  render st (handleImageRemove snap u) =
  mkEditorImages (Js.filter_ne u (images st))
    (if bool_decide (featuredImage snap = u)
     then first_or_empty (Js.filter_ne u (images snap)) else featuredImage st).
Proof. unfold handleImageRemove. by case_bool_decide. Qed.

Lemma filter_ne_cons_ne u x l : x ≠ u → Js.filter_ne u (x :: l) = x :: Js.filter_ne u l.
Proof. intros Hx. unfold Js.filter_ne. by rewrite filter_cons_True. Qed.

Lemma filter_ne_cons_eq u l : Js.filter_ne u (u :: l) = Js.filter_ne u l.
Proof. unfold Js.filter_ne. rewrite filter_cons_False; [done|]. by intros ?. Qed.

Lemma first_or_empty_elem l : l ≠ [] → first_or_empty l ∈ l.
Proof. destruct l; [done|]. intros _. by left. Qed.

#[export] Hint Rewrite render_add render_remove filter_ne_cons_eq : blog_rw.

(** Unfold one action on the tracker into its effect. *)
Ltac tracker_simpl :=
  repeat first [ rewrite render_add | rewrite render_remove | rewrite filter_ne_cons_eq
               | rewrite filter_ne_cons_ne by congruence ]; unfold add_sets_featured; simpl.

Lemma fresh_step_featured_first st st' :
  featured_first st → fresh_step st st' → featured_first st'.
Proof.
  unfold featured_first. intros Hf Hs. inversion Hs as [s [u|u]]; subst;
    cbn [handler]; tracker_simpl.
  - rewrite Hf. destruct (images st) as [|x l]; [done|]. simpl.
    rewrite ?bool_decide_false by done. by rewrite ?andb_false_r.
  - case_bool_decide as Hu; [done|]. rewrite Hf in Hu |- *.
    destruct (images st) as [|x l]; [done|]. simpl in *. by rewrite filter_ne_cons_ne.
Qed.

Lemma tracked_step_featured_tracked st st' :
  featured_tracked st → tracked_step st st' → featured_tracked st'.
Proof.
  unfold featured_tracked. intros Hf Hs.
  destruct Hs as [? ? Hs|snap ? u]; [inversion Hs as [s [u|u]]; subst; cbn [handler]|];
    tracker_simpl.
  - destruct (_ && _); [right; apply elem_of_app; right; by left|].
    destruct Hf as [Hf|Hf]; [by left|]. right. apply elem_of_app. by left.
  - case_bool_decide as Hu.
    + destruct (Js.filter_ne u (images st)) eqn:E; [by left|]. right. by left.
    + destruct Hf as [Hf|Hf]; [by left|]. right. by apply filter_ne_elem.
  - destruct (_ && _); [right; apply elem_of_app; right; by left|].
    destruct Hf as [Hf|Hf]; [by left|]. right. apply elem_of_app. by left.
Qed.

(** ** Properties *)

(** C12: when the user acts one step at a time (every handler from the
    latest render), the featured image of a new post is always its first
    image, and [""] exactly when it has none: the spec's rule "the first
    element doubles as the featured image" (§3, §4.2) holds. *)
Theorem fresh_featured_is_first st :
  rtc fresh_step empty_editor st → featured_first st.
Proof.
  intros Hr. eapply (rtc_invariant fresh_step featured_first); [|exact Hr|done].
  intros x y. apply fresh_step_featured_first.
Qed.

(** One action handled by the handler of the latest render has the
    effect the spec's tracker gives it. *)
Lemma handler_refines_step st e : render st (handler st e) = TrackerSpec.step st e.
Proof.
  destruct e as [u|u]; cbn [handler TrackerSpec.step]; tracker_simpl.
  - unfold TrackerSpec.add, Js.falsy. f_equal.
    destruct (images st); simpl; repeat case_bool_decide; naive_solver.
  - unfold TrackerSpec.remove, Js.filter_ne. by case_bool_decide.
Qed.

(** C13: refinement.  Run one action at a time, each with the handlers of
    the latest render, the editor's [handleImageAdd] and
    [handleImageRemove] implement the spec's abstract tracker (§4.2)
    exactly: from any state, any sequence of actions ends in the state the
    spec's [add]/[remove] machine reaches. *)
Theorem fresh_run_refines_spec st es :
  fresh_run st es = foldl TrackerSpec.step st es.
Proof.
  revert st. induction es as [|e es IH]; intros st; [done|].
  cbn [fresh_run foldl]. rewrite handler_refines_step. apply IH.
Qed.

(** The spec's tracker scenario (§8), one action at a time from an
    empty editor: [add(x)] makes [x] featured, [add(y)] keeps [x],
    [remove(x)] makes [y] featured, [remove(y)] clears it. *)
Theorem tracker_scenario x y :
  x ≠ y →
  fresh_run empty_editor [AddImage x] = mkEditorImages [x] x ∧
  fresh_run empty_editor [AddImage x; AddImage y] = mkEditorImages [x; y] x ∧
  fresh_run empty_editor [AddImage x; AddImage y; RemoveImage x] = mkEditorImages [y] y ∧
  fresh_run empty_editor [AddImage x; AddImage y; RemoveImage x; RemoveImage y] = empty_editor.
Proof.
  intros Hxy. unfold fresh_run, empty_editor. cbn [foldl handler].
  rewrite ?render_add, ?render_remove. unfold add_sets_featured. simpl. rewrite ?andb_false_r.
  rewrite ?filter_ne_cons_eq, ?filter_ne_cons_ne by congruence.
  repeat case_bool_decide; try congruence; simpl;
    rewrite ?filter_ne_cons_eq, ?filter_ne_cons_ne by congruence; done.
Qed.

(** C14: the callbacks of one upload batch all come from the render in
    which the batch started.  Completing in the order of [us], they append
    every URL, and each finds the snapshot's featured image empty and its
    list empty when the batch started from an empty editor: the featured
    image ends as the last upload to complete, not the first one as the
    spec (§4.2) says. *)
Theorem batch_featured_is_last st us :
  run_from empty_editor st (AddImage <$> us) =
    mkEditorImages (images st ++ us) (default (featuredImage st) (last us)).
Proof.
  revert st. induction us as [|u us IH] using rev_ind; intros st.
  - unfold run_from. simpl. rewrite app_nil_r. by destruct st.
  - unfold run_from in *. rewrite !fmap_app, concat_app, render_app, IH. simpl.
    rewrite last_snoc. simpl. by rewrite app_assoc.
Qed.

(** C15: the weaker invariant "the featured image is empty or one of the
    images" is kept by every fresh action and by the [onImageAdd] callbacks
    of a batch whatever render they come from. *)
Theorem tracked_invariant st0 st :
  featured_tracked st0 → rtc tracked_step st0 st → featured_tracked st.
Proof.
  intros H0 Hr. eapply (rtc_invariant tracked_step featured_tracked); [|exact Hr|done].
  intros x y. apply tracked_step_featured_tracked.
Qed.

(** C16: two removals issued from the same render (the widget awaits
    [getUser] and [deleteImage] before calling [onImageRemove], so a second
    click can land before the first removal renders): removing the
    featured [a] and then [b] leaves [b] featured although [b] is no
    longer an image; the featured image then points at a deleted object. *)
Theorem stale_removals_orphan_featured a b c :
  a ≠ b → b ≠ c → a ≠ c → b ≠ "" →
  let st := mkEditorImages [a; b; c] a in
  run_from st st [RemoveImage a; RemoveImage b] = mkEditorImages [c] b ∧
  ¬ featured_tracked (run_from st st [RemoveImage a; RemoveImage b]).
Proof.
  intros Hab Hbc Hac Hb st. unfold run_from. simpl. tracker_simpl.
  rewrite bool_decide_true, bool_decide_false by congruence. simpl. tracker_simpl.
  split; [done|]. unfold featured_tracked. simpl. set_solver.
Qed.

(** ** Witnesses *)

Lemma tracker_scenario_witness :
  fresh_run empty_editor [AddImage "x.png"] = mkEditorImages ["x.png"] "x.png" ∧
  fresh_run empty_editor [AddImage "x.png"; AddImage "y.png"] = mkEditorImages ["x.png"; "y.png"] "x.png" ∧
  fresh_run empty_editor [AddImage "x.png"; AddImage "y.png"; RemoveImage "x.png"] =
    mkEditorImages ["y.png"] "y.png" ∧
  fresh_run empty_editor [AddImage "x.png"; AddImage "y.png"; RemoveImage "x.png"; RemoveImage "y.png"] =
    empty_editor.
Proof. apply tracker_scenario. done. Defined.

Lemma fresh_featured_is_first_witness :
  featured_first (render (render empty_editor (handler empty_editor (AddImage "x.png")))
                    (handler (render empty_editor (handler empty_editor (AddImage "x.png"))) (AddImage "y.png"))).
Proof.
  apply fresh_featured_is_first. eapply rtc_l; [constructor|]. eapply rtc_l; [constructor|].
  apply rtc_refl.
Defined.

Lemma tracked_invariant_witness :
  featured_tracked (render (render empty_editor (handleImageAdd empty_editor "x.png"))
                    (handleImageAdd empty_editor "y.png")).
Proof.
  apply (tracked_invariant empty_editor); [by left|].
  eapply rtc_l; [apply tracked_batch_add|]. eapply rtc_l; [apply tracked_batch_add|].
  apply rtc_refl.
Defined.

Lemma stale_removals_orphan_featured_witness :
  run_from (mkEditorImages ["a"; "b"; "c"] "a") (mkEditorImages ["a"; "b"; "c"] "a")
    [RemoveImage "a"; RemoveImage "b"] = mkEditorImages ["c"] "b" ∧
  ¬ featured_tracked (run_from (mkEditorImages ["a"; "b"; "c"] "a") (mkEditorImages ["a"; "b"; "c"] "a")
                        [RemoveImage "a"; RemoveImage "b"]).
Proof. apply stale_removals_orphan_featured; done. Defined.

(** Adds append their URLs, whatever the snapshot. *)
Lemma render_adds_images snap st us :
  images (render st (concat (handleImageAdd snap <$> us))) = images st ++ us.
Proof.
  revert st. induction us as [|u us IH]; intros st; [simpl; by rewrite app_nil_r|].
  rewrite fmap_cons, concat_cons, render_app, IH, render_add. simpl. by rewrite <- app_assoc.
Qed.
