(* ===== verification/UploadWidget.v ===== *)
(** * UploadWidget: [src/components/ui/image-upload.tsx]

    The [ImageUpload] component receives the editor's [images],
    [onImageAdd], [onImageRemove] and [maxImages] as props; all of them come
    from one render of [PostForm], the snapshot [snap].  [handleFileUpload]
    rejects a batch that would exceed [maxImages] or has no signed-in user,
    then starts one [uploadImage] per file; the uploads complete in the
    order [order] (a permutation of the file indices), each success calling
    [onImageAdd] and each failure raising a toast, and [Promise.all] ends
    with the summary toasts.  [env i] holds the clock, token and network
    outcome of file [i].  [handleImageRemove] deletes the object at once and
    then calls [onImageRemove]. *)

From S2P Require Import Prelude Storage ImageUpload Tracker.

(** The toasts the widget raises. *)
Inductive Toast :=
  | ToastTooMany (maxImages : nat)        (** ["Too many images"] *)
  | ToastAuthRequired                     (** ["Authentication required"] *)
  | ToastUploadFailed (description : string)
  | ToastUploadSuccessful (count : nat)   (** ["<n> image(s) uploaded successfully."] *)
  | ToastSomeFailed (count : nat).        (** ["<n> image(s) failed to upload."] *)

#[export] Instance Toast_eq_dec : EqDecision Toast.
Proof. solve_decision. Defined.

(** The nondeterministic inputs of one file's upload. *)
Record UploadEnv := mkUploadEnv {
  env_now : N;                 (** [Date.now()] *)
  env_token : string;          (** [Math.random().toString(36).substring(2)] *)
  env_net : option string      (** the upload request's failure, if any *)
}.

Section WithStorage.
Context {B : Type} `{StorageClient B}.
Variable supabase_url : string.

(** What the batch has produced so far: the per-file results of
    [Promise.all], the toasts, the editor updates enqueued through
    [onImageAdd], and the bucket. *)
Record Progress := mkProgress {
  results : list bool;
  toasts : list Toast;
  queued : list Update;
  bucket : B
}.

(** [result.error || `Failed to upload ${file.name}`] *)
Definition failure_description (file : File) (error : option string) : string :=
  match error with
  | Some e => if Js.falsy e then "Failed to upload " +:+ file_name file else e
  | None => "Failed to upload " +:+ file_name file
  end.

(** The body of [uploadPromises]' callback for one file, as it completes. *)
Definition upload_one (snap : EditorImages) (userId : string) (file : File) (env : UploadEnv)
    (p : Progress) : Progress :=
  let '(result, b') := uploadImage supabase_url (env_net env) (env_now env) (env_token env)
                         file userId (bucket p) in
  match success result, url result with
  | true, Some u => mkProgress (results p ++ [true]) (toasts p) (queued p ++ handleImageAdd snap u) b'
  | _, _ => mkProgress (results p ++ [false])
              (toasts p ++ [ToastUploadFailed (failure_description file (error result))]) (queued p) b'
  end.

(** The uploads of the batch, completing in the order [order]. *)
Definition run_uploads (snap : EditorImages) (userId : string) (files : list File)
    (env : nat → UploadEnv) (order : list nat) (p : Progress) : Progress :=
  foldl (λ p i, match files !! i with
                | Some f => upload_one snap userId f (env i) p
                | None => p
                end) p order.

(** The toasts after [Promise.all]. *)
Definition summary_toasts (results : list bool) : list Toast :=
  let successCount := length (filter (λ r, r = true) results) in
  let failCount := length results - successCount in
  (if bool_decide (0 < successCount) then [ToastUploadSuccessful successCount] else []) ++
  (if bool_decide (0 < failCount) then [ToastSomeFailed failCount] else []).

(** [handleFileUpload(files)]; [user] is [supabase.auth.getUser()]'s user. *)
Definition handleFileUpload (snap : EditorImages) (maxImages : nat) (user : option string)
    (files : option (list File)) (env : nat → UploadEnv) (order : list nat) (b : B)
    : list Toast * list Update * B :=
  match files with
  | None => ([], [], b)
  | Some fs =>
      if bool_decide (length fs = 0) then ([], [], b)
      else if bool_decide (maxImages < length (images snap) + length fs) then
        ([ToastTooMany maxImages], [], b)
      else match user with
           | None => ([ToastAuthRequired], [], b)
           | Some userId =>
               let p := run_uploads snap userId fs env order (mkProgress [] [] [] b) in
               (toasts p ++ summary_toasts (results p), queued p, bucket p)
           end
  end.

(** [handleImageRemove(imageUrl)]: delete the object when signed in and
    the URL mentions ["supabase"], then [onImageRemove(imageUrl)]. *)
Definition widget_handleImageRemove (snap : EditorImages) (user : option string)
    (net : option string) (imageUrl : string) (b : B) : list Update * B :=
  let b' := match user with
            | Some userId =>
                if Js.includes imageUrl "supabase" then (deleteImage net imageUrl userId b).2 else b
            | None => b
            end in
  (handleImageRemove snap imageUrl, b').
End WithStorage.

Arguments mkProgress {B} _ _ _ _.
Arguments results {B} _.
Arguments toasts {B} _.
Arguments queued {B} _.
Arguments bucket {B} _.

(** ** Properties *)

Section Laws.
Context {B : Type} `{StorageLaws B}.
Variable supabase_url : string.

(** The part of the progress later uploads depend on. *)
Definition queue_and_bucket (p : Progress (B:=B)) : list Update * B := (queued p, bucket p).

Lemma run_uploads_cons snap uid fs env i order (p : Progress (B:=B)) :
  run_uploads supabase_url snap uid fs env (i :: order) p =
  run_uploads supabase_url snap uid fs env order
    (match fs !! i with Some f => upload_one supabase_url snap uid f (env i) p | None => p end).
Proof. reflexivity. Qed.

Lemma upload_one_queue_and_bucket snap uid f env (p1 p2 : Progress (B:=B)) :
  queue_and_bucket p1 = queue_and_bucket p2 →
  queue_and_bucket (upload_one supabase_url snap uid f env p1) =
  queue_and_bucket (upload_one supabase_url snap uid f env p2).
Proof.
  unfold queue_and_bucket, upload_one. intros [= Hq Hb]. rewrite Hb.
  destruct (uploadImage _ _ _ _ _ _ _) as [r b']. destruct (success r), (url r); simpl; congruence.
Qed.

Lemma run_uploads_queue_and_bucket snap uid fs env order (p1 p2 : Progress (B:=B)) :
  queue_and_bucket p1 = queue_and_bucket p2 →
  queue_and_bucket (run_uploads supabase_url snap uid fs env order p1) =
  queue_and_bucket (run_uploads supabase_url snap uid fs env order p2).
Proof.
  revert p1 p2. induction order as [|i order IH]; intros p1 p2 Hp; [done|].
  rewrite !run_uploads_cons. apply IH. destruct (fs !! i); [|done].
  by apply upload_one_queue_and_bucket.
Qed.

Lemma upload_one_invalid snap uid f env (p : Progress (B:=B)) :
  ¬ valid_file f →
  queue_and_bucket (upload_one supabase_url snap uid f env p) = queue_and_bucket p.
Proof.
  intros Hv. unfold upload_one.
  destruct (uploadImage_invalid supabase_url (env_net env) (env_now env) (env_token env) f uid
              (bucket p) Hv) as [msg ->].
  done.
Qed.

Lemma upload_one_queued snap uid f env (p : Progress (B:=B)) :
  ∃ us, queued (upload_one supabase_url snap uid f env p) =
          queued p ++ concat (handleImageAdd snap <$> us) ∧ length us ≤ 1.
Proof.
  unfold upload_one. destruct (uploadImage _ _ _ _ _ _ _) as [r b'].
  destruct (success r), (url r) as [u|]; simpl;
    first [exists [u]; simpl; rewrite app_nil_r; split; [done|lia]
          |exists []; simpl; rewrite app_nil_r; split; [done|lia]].
Qed.

Lemma run_uploads_queued snap uid fs env order (p : Progress (B:=B)) :
  ∃ us, queued (run_uploads supabase_url snap uid fs env order p) =
          queued p ++ concat (handleImageAdd snap <$> us) ∧ length us ≤ length order.
Proof.
  revert p. induction order as [|i order IH]; intros p.
  { exists []. simpl. rewrite app_nil_r. split; [done|lia]. }
  rewrite run_uploads_cons. destruct (fs !! i) as [f|].
  - destruct (upload_one_queued snap uid f (env i) p) as (us1 & Hq1 & Hl1).
    destruct (IH (upload_one supabase_url snap uid f (env i) p)) as (us2 & Hq2 & Hl2).
    exists (us1 ++ us2). rewrite Hq2, Hq1, fmap_app, concat_app, app_assoc.
    split; [done|]. rewrite length_app. simpl. lia.
  - destruct (IH p) as (us & Hq & Hl). exists us. split; [done|]. simpl. lia.
Qed.

(** C17: a non-empty batch that would take the post past [maxImages] is
    rejected as a whole before any request: one toast, no editor update,
    the store unchanged, whoever is signed in and whatever the uploads
    would have done. *)
Theorem handleFileUpload_over_cap snap maxImages user fs env order (b : B) :
  fs ≠ [] → maxImages < length (images snap) + length fs →
  handleFileUpload supabase_url snap maxImages user (Some fs) env order b =
    ([ToastTooMany maxImages], [], b).
Proof.
  intros Hne Hcap. unfold handleFileUpload.
  rewrite bool_decide_false by (destruct fs; simpl; done).
  by rewrite bool_decide_true.
Qed.

(** C18: partial-failure independence.  A file that fails validation has
    no effect on the store or on the editor updates of the batch: the batch
    behaves as if that file's upload had not been issued at all. *)
Theorem invalid_file_independent snap uid fs env order i f (p : Progress (B:=B)) :
  fs !! i = Some f → ¬ valid_file f →
  queue_and_bucket (run_uploads supabase_url snap uid fs env order p) =
  queue_and_bucket (run_uploads supabase_url snap uid fs env (filter (λ j, j ≠ i) order) p).
Proof.
  intros Hi Hv. revert p. induction order as [|j order IH]; intros p; [done|].
  rewrite run_uploads_cons. destruct (decide (j = i)) as [->|Hji].
  - rewrite filter_cons_False by naive_solver. rewrite Hi, <- IH.
    apply run_uploads_queue_and_bucket, upload_one_invalid, Hv.
  - rewrite filter_cons_True by done. rewrite run_uploads_cons. apply IH.
Qed.

(** A batch whose callbacks come from the latest render (no other
    batch in flight) keeps the post within [maxImages]: every file is
    uploaded once ([Promise.all] over the files), and only successes add
    an image. *)
Theorem handleFileUpload_respects_cap st maxImages user fs env order (b : B) ts q b' :
  order ≡ₚ seq 0 (length fs) → length (images st) ≤ maxImages →
  handleFileUpload supabase_url st maxImages user (Some fs) env order b = (ts, q, b') →
  length (images (render st q)) ≤ maxImages.
Proof.
  intros Hperm Hst. unfold handleFileUpload.
  case_bool_decide; [intros; simplify_eq; done|].
  case_bool_decide as Hcap; [intros; simplify_eq; done|].
  destruct user as [uid|]; intros; simplify_eq; [|done].
  destruct (run_uploads_queued st uid fs env order (mkProgress [] [] [] b)) as (us & Hq & Hl).
  rewrite Hq. simpl. rewrite render_adds_images, length_app.
  apply Permutation_length in Hperm. rewrite length_seq in Hperm. lia.
Qed.
End Laws.

(** ** Concrete batches *)

Definition batch_env (tag : string) (i : nat) : UploadEnv :=
  mkUploadEnv (1714000000000 + N.of_nat i) tag None.

Definition cat_url : string :=
  "https://abc.supabase.co/storage/v1/object/public/blog-images/u1/1714000000000-k3x9.png".

Definition cat_dog_batch (order : list nat) : list Toast * list Update * gset string :=
  handleFileUpload demo_url empty_editor 10 (Some "u1") (Some [cat_png; dog_png])
    (batch_env "k3x9") order ∅.


(** Six valid pictures, [p0.png] .. [p5.png]. *)
Definition six_pictures : list File :=
  (λ i : nat, mkFile ("p" +:+ pretty i +:+ ".png") "image/png" 1000) <$> seq 0 6.

(** Two batches dropped on the widget of the same render (the drop zone is
    not disabled while a batch uploads), each within the cap of 10. *)
Definition overlapping_batches : EditorImages :=
  let '(_, qa, ba) := handleFileUpload demo_url empty_editor 10 (Some "u1") (Some six_pictures)
                        (batch_env "aaaa") (seq 0 6) ∅ in
  let '(_, qb, _) := handleFileUpload demo_url empty_editor 10 (Some "u1") (Some six_pictures)
                       (batch_env "bbbb") (seq 0 6) ba in
  render empty_editor (qa ++ qb).


(** ** Witnesses *)

Lemma handleFileUpload_over_cap_witness :
  handleFileUpload demo_url (mkEditorImages ["a"; "b"; "c"; "d"] "a") 5 (Some "u1")
    (Some [cat_png; cat_png]) (batch_env "k3x9") [0; 1] (∅ : gset string) =
    ([ToastTooMany 5], [], ∅).
Proof. apply handleFileUpload_over_cap; [done|simpl; lia]. Defined.

Lemma invalid_file_independent_witness :
  queue_and_bucket
    (run_uploads demo_url empty_editor "u1" [cat_png; dog_png; cat_png] (batch_env "k3x9") [0; 1; 2]
       (mkProgress [] [] [] (∅ : gset string))) =
  queue_and_bucket
    (run_uploads demo_url empty_editor "u1" [cat_png; dog_png; cat_png] (batch_env "k3x9")
       (filter (λ j, j ≠ 1) [0; 1; 2]) (mkProgress [] [] [] (∅ : gset string))).
Proof.
  apply (invalid_file_independent demo_url _ _ _ _ _ 1 dog_png); [done|].
  intros [_ Hs]. unfold max_image_size in Hs. simpl in Hs. lia.
Defined.

Lemma handleFileUpload_respects_cap_witness :
  length (images (render empty_editor (cat_dog_batch [1; 0]).1.2)) ≤ 10.
Proof.
  apply (handleFileUpload_respects_cap demo_url empty_editor 10 (Some "u1") [cat_png; dog_png]
           (batch_env "k3x9") [1; 0] ∅ (cat_dog_batch [1; 0]).1.1 _ (cat_dog_batch [1; 0]).2).
  - apply Permutation_swap.
  - simpl. lia.
  - reflexivity.
Defined.

