(* ===== verification/WidgetSession.v ===== *)
(** * WidgetSession: the upload widget over time

    [UploadWidget] models one call of [handleFileUpload] as a whole.  This
    file models the [ImageUpload] component of
    [src/components/ui/image-upload.tsx] as a session: its state
    ([isUploading], [dragActive], the [uploadingFiles] set), the drag and
    drop handlers, the "Choose Files" button with its [disabled] guard, and
    the batches in flight, each of whose uploads completes in a step of its
    own (one macrotask, after which React renders).  A batch is started by a
    drop or by the file input; its per-file callbacks are [upload_one] of
    [UploadWidget], run against the shared bucket and the latest editor,
    and its [finally] ([setIsUploading(false)]) runs when the last of its
    uploads has completed ([Promise.all]).  The [await getUser()] before
    [setIsUploading(true)] is merged into the start of the batch: its
    answer is an input. *)

From S2P Require Import Prelude Storage ImageUpload Tracker UploadWidget.

(** The component's own state. *)
Record WidgetState := mkWidgetState {
  isUploading : bool;
  dragActive : bool;
  uploadingFiles : gset string
}.

Definition initial_widget_state : WidgetState := mkWidgetState false false ∅.

(** [e.type] of a drag event. *)
Inductive DragEventType := DragEnter | DragOver | DragLeave | DragOtherType.

(** [handleDrag(e)] *)
Definition handleDrag (ty : DragEventType) (ws : WidgetState) : WidgetState :=
  match ty with
  | DragEnter | DragOver => mkWidgetState (isUploading ws) true (uploadingFiles ws)
  | DragLeave => mkWidgetState (isUploading ws) false (uploadingFiles ws)
  | DragOtherType => ws
  end.

(** [`${file.name}-${Date.now()}`] *)
Definition fileId (f : File) (now : N) : string := file_name f +:+ "-" +:+ pretty now.

Section WithStorage.
Context {B : Type} `{StorageClient B}.
Variable supabase_url : string.

(** A call of [handleFileUpload] waiting on [Promise.all]. *)
Record Batch := mkBatch {
  bt_snap : EditorImages;          (** the render whose [onImageAdd] it calls *)
  bt_user : string;
  bt_files : list File;
  bt_env : nat → UploadEnv;
  bt_ids : list string;            (** the [fileId] of each file *)
  bt_pending : list nat;           (** the files whose upload has not completed *)
  bt_results : list bool           (** the results so far, in completion order *)
}.

Record Session := mkSession {
  ws : WidgetState;
  batches : list Batch;
  store : B;
  editor : EditorImages;           (** the editor as last rendered *)
  shown : list Toast
}.

Definition set_ws (w : WidgetState) (s : Session) : Session :=
  mkSession w (batches s) (store s) (editor s) (shown s).

Definition show (t : Toast) (s : Session) : Session :=
  mkSession (ws s) (batches s) (store s) (editor s) (shown s ++ [t]).

(** [handleFileUpload(files)] up to the first upload's [await]: the guards,
    [setIsUploading(true)], and the synchronous part of each callback of
    [files.map] ([setUploadingFiles] adds its [fileId]; [clock i] is
    [Date.now()] when file [i] is mapped). *)
Definition start_batch (maxImages : nat) (user : option string) (files : option (list File))
    (clock : nat → N) (env : nat → UploadEnv) (s : Session) : Session :=
  match files with
  | None => s
  | Some fs =>
      if bool_decide (length fs = 0) then s
      else if bool_decide (maxImages < length (images (editor s)) + length fs) then
        show (ToastTooMany maxImages) s
      else match user with
           | None => show ToastAuthRequired s
           | Some uid =>
               let ids := imap (λ i f, fileId f (clock i)) fs in
               mkSession (mkWidgetState true (dragActive (ws s)) (list_to_set ids ∪ uploadingFiles (ws s)))
                 (batches s ++ [mkBatch (editor s) uid fs env ids (seq 0 (length fs)) []])
                 (store s) (editor s) (shown s)
           end
  end.

(** The upload of file [i] of batch [k] completes: the callback's body
    after [await uploadImage], then its [finally], then a render. *)
Definition complete_upload (k i : nat) (s : Session) : Session :=
  match batches s !! k with
  | None => s
  | Some bt =>
      match bt_files bt !! i, bt_ids bt !! i with
      | Some f, Some id =>
          let p := upload_one supabase_url (bt_snap bt) (bt_user bt) f (bt_env bt i)
                     (mkProgress (bt_results bt) [] [] (store s)) in
          mkSession (mkWidgetState (isUploading (ws s)) (dragActive (ws s)) (uploadingFiles (ws s) ∖ {[id]}))
            (<[k := mkBatch (bt_snap bt) (bt_user bt) (bt_files bt) (bt_env bt) (bt_ids bt)
                      (filter (λ j, j ≠ i) (bt_pending bt)) (results p)]> (batches s))
            (bucket p) (render (editor s) (queued p)) (shown s ++ toasts p)
      | _, _ => s
      end
  end.

(** [Promise.all] of batch [k] resolves: the summary toasts and the outer
    [finally]. *)
Definition finish_batch (k : nat) (s : Session) : Session :=
  match batches s !! k with
  | None => s
  | Some bt =>
      mkSession (mkWidgetState false (dragActive (ws s)) (uploadingFiles (ws s)))
        (delete k (batches s)) (store s) (editor s) (shown s ++ summary_toasts (bt_results bt))
  end.

(** [handleDrop(e)]: [setDragActive(false)], then [handleFileUpload] when
    [e.dataTransfer.files[0]] exists. *)
Definition handleDrop (maxImages : nat) (user : option string) (fs : list File)
    (clock : nat → N) (env : nat → UploadEnv) (s : Session) : Session :=
  let s := set_ws (mkWidgetState (isUploading (ws s)) false (uploadingFiles (ws s))) s in
  match fs with
  | [] => s
  | _ => start_batch maxImages user (Some fs) clock env s
  end.

(** The remove button of an image: the widget's [handleImageRemove], then
    a render of the editor. *)
Definition remove_image (user net : option string) (url : string) (s : Session) : Session :=
  let '(q, b') := widget_handleImageRemove (editor s) user net url (store s) in
  mkSession (ws s) (batches s) b' (render (editor s) q) (shown s).

(** "Choose Files": [disabled={isUploading || images.length >= maxImages}]. *)
Definition choose_files_enabled (maxImages : nat) (s : Session) : bool :=
  negb (isUploading (ws s)) && bool_decide (length (images (editor s)) < maxImages).
End WithStorage.

Arguments Batch : clear implicits.
Arguments Session B : clear implicits.

Section Steps.
Context {B : Type} `{StorageClient B}.
Variable supabase_url : string.
Variable maxImages : nat.

(** An upload completes, or a batch whose uploads have all completed
    resolves its [Promise.all]. *)
Inductive completion_step : Session B → Session B → Prop :=
  | cs_complete s k i bt f id :
      batches s !! k = Some bt → i ∈ bt_pending bt →
      bt_files bt !! i = Some f → bt_ids bt !! i = Some id →
      completion_step s (complete_upload supabase_url k i s)
  | cs_finish s k bt :
      batches s !! k = Some bt → bt_pending bt = [] →
      completion_step s (finish_batch k s).

(** The events of a session: the user's drags, drops, file choices and
    removals, and the completions. *)
Inductive session_step : Session B → Session B → Prop :=
  | ss_drag ty s : session_step s (set_ws (handleDrag ty (ws s)) s)
  | ss_drop user fs clock env s :
      session_step s (handleDrop maxImages user fs clock env s)
  | ss_choose user files clock env s :
      choose_files_enabled maxImages s = true →
      session_step s (start_batch maxImages user files clock env s)
  | ss_remove user net url s :
      session_step s (remove_image user net url s)
  | ss_completion s s' : completion_step s s' → session_step s s'.

End Steps.

(** ** Properties *)

(** The work left: each batch counts its pending uploads and its
    [Promise.all]. *)
Definition work_left {B} (s : Session B) : nat :=
  sum_list_with (λ bt, S (length (bt_pending bt))) (batches s).

(** What a completion does to the batches: batch [k] loses [i] from its
    pending uploads. *)
Lemma complete_upload_batches {B} `{StorageClient B} url s k i bt f id :
  batches s !! k = Some bt → bt_files bt !! i = Some f → bt_ids bt !! i = Some id →
  ∃ bt', batches (complete_upload url k i s) = <[k:=bt']> (batches s) ∧
         bt_pending bt' = filter (λ j, j ≠ i) (bt_pending bt).
Proof. intros Hk Hf Hid. unfold complete_upload. rewrite Hk, Hf, Hid. by eexists. Qed.

(** Removing a pending upload shortens the pending list. *)
Lemma pending_filter_shorter i (pend : list nat) :
  i ∈ pend → length (filter (λ j, j ≠ i) pend) < length pend.
Proof. intros Hi. apply (length_filter_lt _ _ i Hi). naive_solver. Qed.

Lemma complete_upload_work {B} `{StorageClient B} url s k i bt f id :
  batches s !! k = Some bt → i ∈ bt_pending bt →
  bt_files bt !! i = Some f → bt_ids bt !! i = Some id →
  work_left (complete_upload url k i s) < work_left s.
Proof.
  intros Hk Hi Hf Hid. destruct (complete_upload_batches url s k i bt f id Hk Hf Hid) as (bt' & Hb & Hp).
  unfold work_left. rewrite Hb.
  pose proof (sum_list_with_insert (λ bt, S (length (bt_pending bt))) (batches s) k bt' bt Hk) as Hs.
  pose proof (pending_filter_shorter i _ Hi). cbv beta in Hs. rewrite Hp in Hs. lia.
Qed.

Lemma finish_batch_work {B} (s : Session B) k bt :
  batches s !! k = Some bt → work_left (finish_batch k s) < work_left s.
Proof.
  intros Hk. unfold finish_batch, work_left. rewrite Hk. cbn [batches].
  pose proof (sum_list_with_delete (λ bt, S (length (bt_pending bt))) (batches s) k bt Hk) as Hs.
  cbv beta in Hs. lia.
Qed.

Lemma completion_step_work {B} `{StorageClient B} url (s s' : Session B) :
  completion_step url s s' → work_left s' < work_left s.
Proof.
  intros [s0 k i bt f id Hk Hi Hf Hid|s0 k bt Hk _];
    [eapply complete_upload_work|eapply finish_batch_work]; eauto.
Qed.


Definition initial_session {B} (b : B) (ed : EditorImages) : Session B :=
  mkSession initial_widget_state [] b ed [].

(** [x] is the [fileId] of an upload still in flight. *)
Definition pending_id {B} (s : Session B) (x : string) : Prop :=
  ∃ k bt j, batches s !! k = Some bt ∧ j ∈ bt_pending bt ∧ bt_ids bt !! j = Some x.

(** A batch has one id per file, and its pending uploads are files of it. *)
Definition batch_wf (bt : Batch) : Prop :=
  length (bt_ids bt) = length (bt_files bt) ∧ ∀ j, j ∈ bt_pending bt → j < length (bt_files bt).

(** The session invariant: no batch in flight means no spinner, every id
    of [uploadingFiles] is the id of an upload in flight, and the batches
    are well formed. *)
Definition sess_inv {B} (s : Session B) : Prop :=
  (batches s = [] → isUploading (ws s) = false) ∧
  (∀ x, x ∈ uploadingFiles (ws s) → pending_id s x) ∧
  Forall batch_wf (batches s).

Lemma sess_inv_same_batches {B} (s s' : Session B) :
  batches s' = batches s → isUploading (ws s') = isUploading (ws s) →
  uploadingFiles (ws s') = uploadingFiles (ws s) → sess_inv s → sess_inv s'.
Proof.
  intros Hb Hu Hf (Hi & Hp & Hw). unfold sess_inv, pending_id in *.
  rewrite Hb, Hu, Hf. naive_solver.
Qed.

Lemma start_batch_inv {B} `{StorageClient B} maxImages user files clock env (s : Session B) :
  sess_inv s → sess_inv (start_batch maxImages user files clock env s).
Proof.
  intros Hs. unfold start_batch.
  destruct files as [fs|]; [|done]. case_bool_decide; [done|].
  case_bool_decide; [by apply (sess_inv_same_batches s)|].
  destruct user as [uid|]; [|by apply (sess_inv_same_batches s)].
  destruct Hs as (Hi & Hp & Hw). split_and!; simpl.
  - by destruct (batches s).
  - intros x [Hx|Hx]%elem_of_union.
    + apply elem_of_list_to_set, list_elem_of_lookup in Hx as [j Hj].
      exists (length (batches s)). eexists _, j. simpl. rewrite lookup_app_r, Nat.sub_diag by lia.
      split; [done|]. split; [|done]. apply elem_of_seq.
      apply lookup_lt_Some in Hj. rewrite length_imap in Hj. lia.
    + destruct (Hp x Hx) as (k & bt & j & Hk & Hj & Hid).
      exists k, bt, j. simpl. rewrite lookup_app_l by (by eapply lookup_lt_Some). done.
  - apply Forall_app. split; [done|]. apply Forall_singleton. split; simpl.
    + by rewrite length_imap.
    + intros j Hj%elem_of_seq. lia.
Qed.

Lemma complete_upload_inv {B} `{StorageClient B} url k i (s : Session B) :
  sess_inv s → sess_inv (complete_upload url k i s).
Proof.
  intros (Hi & Hp & Hw). unfold complete_upload.
  destruct (batches s !! k) as [bt|] eqn:Hk; [|done].
  destruct (bt_files bt !! i) as [f|], (bt_ids bt !! i) as [id|] eqn:Hid;
    try by split_and!. split_and!; simpl.
  - intros Hnil. apply (f_equal length) in Hnil. rewrite length_insert in Hnil.
    apply lookup_lt_Some in Hk. simpl in Hnil. lia.
  - intros x [Hx Hne]%elem_of_difference.
    destruct (Hp x Hx) as (k' & bt' & j & Hk' & Hj & Hidx).
    destruct (decide (k' = k)) as [->|Hkk].
    + rewrite Hk in Hk'. simplify_eq. exists k. eexists _, j. simpl.
      rewrite list_lookup_insert_eq by (by eapply lookup_lt_Some). split; [done|]. simpl.
      split; [|done]. apply list_elem_of_filter. split; [|done].
      intros ->. apply Hne, elem_of_singleton. congruence.
    + exists k', bt', j. simpl. by rewrite list_lookup_insert_ne by done.
  - apply Forall_insert; [done|]. rewrite Forall_lookup in Hw. destruct (Hw k bt Hk) as [Hl Hj].
    split; [done|]. intros j [_ Hj']%list_elem_of_filter. by apply Hj.
Qed.

Lemma finish_batch_inv {B} (s : Session B) k bt :
  batches s !! k = Some bt → bt_pending bt = [] → sess_inv s → sess_inv (finish_batch k s).
Proof.
  intros Hk Hnil (Hi & Hp & Hw). unfold finish_batch. rewrite Hk. split_and!; simpl.
  - done.
  - intros x Hx. destruct (Hp x Hx) as (k' & bt' & j & Hk' & Hj & Hidx).
    destruct (lt_eq_lt_dec k' k) as [[Hlt| ->]|Hgt].
    + exists k', bt', j. simpl. by rewrite list_lookup_delete_lt.
    + rewrite Hk in Hk'. simplify_eq. rewrite Hnil in Hj. by apply not_elem_of_nil in Hj.
    + exists (k' - 1), bt', j. simpl. rewrite list_lookup_delete_ge by lia.
      by replace (S (k' - 1)) with k' by lia.
  - by apply Forall_delete.
Qed.

Lemma completion_step_inv {B} `{StorageClient B} url (s s' : Session B) :
  completion_step url s s' → sess_inv s → sess_inv s'.
Proof.
  intros [s0 k i bt f id _ _ _ _|s0 k bt Hk Hnil]; intros Hs;
    [by apply complete_upload_inv|by eapply finish_batch_inv].
Qed.

Lemma session_step_inv {B} `{StorageClient B} url maxImages (s s' : Session B) :
  session_step url maxImages s s' → sess_inv s → sess_inv s'.
Proof.
  intros Hst Hs. destruct Hst as [ty s|user fs clock env s|user files clock env s _|user net u s|s s' Hc].
  - apply (sess_inv_same_batches s); [done|..|done]; by destruct ty.
  - unfold handleDrop.
    assert (sess_inv (set_ws (mkWidgetState (isUploading (ws s)) false (uploadingFiles (ws s))) s))
      by by apply (sess_inv_same_batches s).
    destruct fs; [done|]. by apply start_batch_inv.
  - by apply start_batch_inv.
  - unfold remove_image. destruct (widget_handleImageRemove _ _ _ _ _). by apply (sess_inv_same_batches s).
  - by eapply completion_step_inv.
Qed.

Lemma sess_inv_initial {B} (b : B) ed : sess_inv (initial_session b ed).
Proof.
  split_and!; [done| |by constructor].
  intros x Hx. simpl in Hx. set_solver.
Qed.

(** With no batch in flight, the invariant leaves nothing uploading. *)
Lemma sess_inv_quiescent {B} (s : Session B) :
  sess_inv s → batches s = [] → isUploading (ws s) = false ∧ uploadingFiles (ws s) = ∅.
Proof.
  intros (Hi & Hp & _) Hnil. split; [by apply Hi|].
  apply set_eq. intros x. split; [|set_solver]. intros Hx.
  destruct (Hp x Hx) as (k & bt & j & Hk & _). by rewrite Hnil in Hk.
Qed.

(** From a well-formed session some order of completions empties it. *)
Lemma completions_settle {B} `{StorageClient B} url (s : Session B) :
  sess_inv s → ∃ s', rtc (completion_step url) s s' ∧ sess_inv s' ∧ batches s' = [].
Proof.
  induction s as [s IH] using (well_founded_induction
                                 (wf_by_measure (completion_step url) work_left
                                    (completion_step_work url))).
  intros Hs. destruct (batches s) as [|bt bts] eqn:Hb; [by exists s|].
  assert (batches s !! 0 = Some bt) as H0 by by rewrite Hb.
  assert (∃ s1, completion_step url s s1) as [s1 Hs1].
  { destruct (bt_pending bt) as [|i pend] eqn:Hpend.
    - eexists. by eapply cs_finish.
    - destruct Hs as (_ & _ & Hw). rewrite Hb in Hw. apply Forall_cons in Hw as [[Hl Hj] _].
      assert (i < length (bt_files bt)) as Hi by (apply Hj; rewrite Hpend; left).
      destruct (lookup_lt_is_Some_2 (bt_files bt) i Hi) as [f Hf].
      destruct (lookup_lt_is_Some_2 (bt_ids bt) i ltac:(lia)) as [id Hid].
      eexists. eapply cs_complete; [done| |done|done]. rewrite Hpend. left. }
  destruct (IH s1 Hs1 (completion_step_inv url s s1 Hs1 Hs)) as (s' & Hr & Hs' & Hnil).
  exists s'. split_and!; [by eapply rtc_l|done|done].
Qed.

(** C40: liveness.  In every session the widget can reach, the uploads
    in flight can all complete: some order of completions ends with no
    batch in flight, the spinner off and [uploadingFiles] empty. *)
Theorem session_settles {B} `{StorageClient B} url maxImages (b : B) ed s :
  rtc (session_step url maxImages) (initial_session b ed) s →
  ∃ s', rtc (completion_step url) s s' ∧ batches s' = [] ∧
        isUploading (ws s') = false ∧ uploadingFiles (ws s') = ∅.
Proof.
  intros Hr.
  assert (sess_inv s) as Hs.
  { eapply (rtc_invariant _ sess_inv); [|exact Hr|apply sess_inv_initial].
    intros x y Hx Hxy. by eapply session_step_inv. }
  destruct (completions_settle url s Hs) as (s' & Hr' & Hs' & Hnil).
  exists s'. split_and!; [done|done|..]; by apply sess_inv_quiescent.
Qed.

(** ** The image cap over a session *)

(** Uploads in flight, over all batches. *)
Definition pending_uploads {B} (s : Session B) : nat :=
  sum_list_with (λ bt, length (bt_pending bt)) (batches s).

(** A step that starts a batch only when none is in flight: what the
    disabled "Choose Files" button enforces, and a drop does not. *)
Definition guarded_step {B} `{StorageClient B} url maxImages (s s' : Session B) : Prop :=
  session_step url maxImages s s' ∧ (batches s = [] ∨ length (batches s') ≤ length (batches s)).

(** The images of the post and the uploads in flight fit the cap. *)
Definition cap_inv {B} (maxImages : nat) (s : Session B) : Prop :=
  length (images (editor s)) + pending_uploads s ≤ maxImages.

Lemma start_batch_cap {B} `{StorageClient B} maxImages user files clock env (s : Session B) :
  batches s = [] ∨ length (batches (start_batch maxImages user files clock env s)) ≤ length (batches s) →
  cap_inv maxImages s → cap_inv maxImages (start_batch maxImages user files clock env s).
Proof.
  unfold start_batch, cap_inv, pending_uploads.
  destruct files as [fs|]; [|done]. case_bool_decide; [done|].
  case_bool_decide as Hcap; [done|]. destruct user as [uid|]; [|done]. simpl.
  rewrite length_app. simpl. intros [Hnil|Hlen]; [|lia]. rewrite Hnil. simpl.
  rewrite length_seq. lia.
Qed.

Lemma complete_upload_cap {B} `{StorageLaws B} url maxImages k i (s : Session B) :
  (∀ bt, batches s !! k = Some bt → i ∈ bt_pending bt) →
  cap_inv maxImages s → cap_inv maxImages (complete_upload url k i s).
Proof.
  intros Hpend. unfold cap_inv, pending_uploads.
  destruct (batches s !! k) as [bt|] eqn:Hk; [|unfold complete_upload; by rewrite Hk].
  destruct (bt_files bt !! i) as [f|] eqn:Hf; [|unfold complete_upload; by rewrite Hk, Hf].
  destruct (bt_ids bt !! i) as [id|] eqn:Hid; [|unfold complete_upload; by rewrite Hk, Hf, Hid].
  destruct (complete_upload_batches url s k i bt f id Hk Hf Hid) as (bt' & Hb & Hp). rewrite Hb.
  destruct (upload_one_queued url (bt_snap bt) (bt_user bt) f (bt_env bt i)
              (mkProgress (bt_results bt) [] [] (store s))) as (us & Hq & Hus).
  assert (images (editor (complete_upload url k i s)) = images (editor s) ++ us) as He.
  { unfold complete_upload. rewrite Hk, Hf, Hid. simpl. rewrite Hq. apply render_adds_images. }
  rewrite He, length_app.
  pose proof (sum_list_with_insert (λ bt, length (bt_pending bt)) (batches s) k bt' bt Hk) as Hs.
  pose proof (pending_filter_shorter i _ (Hpend bt eq_refl)). cbv beta in Hs. rewrite Hp in Hs. lia.
Qed.

Lemma finish_batch_cap {B} maxImages k bt (s : Session B) :
  batches s !! k = Some bt → bt_pending bt = [] →
  cap_inv maxImages s → cap_inv maxImages (finish_batch k s).
Proof.
  intros Hk Hnil. unfold finish_batch, cap_inv, pending_uploads. rewrite Hk. cbn [batches editor].
  pose proof (sum_list_with_delete (λ bt, length (bt_pending bt)) (batches s) k bt Hk) as Hs.
  cbv beta in Hs. rewrite Hnil in Hs. simpl in Hs. lia.
Qed.

Lemma guarded_step_cap {B} `{StorageLaws B} url maxImages (s s' : Session B) :
  guarded_step url maxImages s s' → cap_inv maxImages s → cap_inv maxImages s'.
Proof.
  intros [Hst Hg] Hs. destruct Hst as [ty s|user fs clock env s|user files clock env s _|user net u s|s s' Hc].
  - done.
  - unfold handleDrop in *. destruct fs; [done|]. by apply (start_batch_cap _ _ _ _ _
      (set_ws (mkWidgetState (isUploading (ws s)) false (uploadingFiles (ws s))) s)).
  - by apply start_batch_cap.
  - unfold remove_image, widget_handleImageRemove, cap_inv, pending_uploads in *.
    cbn -[render handleImageRemove sum_list_with].
    rewrite render_remove. simpl.
    unfold Js.filter_ne. pose proof (length_filter (λ y, y ≠ u) (images (editor s))). lia.
  - destruct Hc as [s k i bt f id Hk Hi _ _|s k bt Hk Hnil].
    + apply complete_upload_cap; [|done]. intros bt' Hk'. congruence.
    + by eapply finish_batch_cap.
Qed.

(** C19: the cap holds over a whole session in which no batch starts while
    another is in flight (the disabled "Choose Files" button): the images
    of the post never exceed [maxImages], whatever the uploads answer, in
    whatever order they complete, with removals in between. *)
Theorem guarded_session_respects_cap {B} `{StorageLaws B} url maxImages (b : B) ed s :
  length (images ed) ≤ maxImages →
  rtc (guarded_step url maxImages) (initial_session b ed) s →
  length (images (editor s)) ≤ maxImages.
Proof.
  intros Hed Hr.
  assert (cap_inv maxImages s) as Hs.
  { eapply (rtc_invariant _ (cap_inv maxImages)); [|exact Hr|].
    - intros x y Hx Hxy. by eapply guarded_step_cap.
    - unfold cap_inv, pending_uploads. simpl. lia. }
  unfold cap_inv in Hs. lia.
Qed.

(** ** Concrete sessions *)

Definition same_ms (_ : nat) : N := 1714000000000.

Definition ws0 : Session (gset string) := initial_session ∅ empty_editor.

(** Batch A of two pictures through "Choose Files"; while it uploads,
    batch B of one picture is dropped on the card (the drop zone has no
    [isUploading] guard); A's uploads complete and A resolves. *)
Definition wsA : Session (gset string) :=
  start_batch 10 (Some "u1") (Some (take 2 six_pictures)) same_ms (batch_env "aaaa") ws0.
Definition wsB : Session (gset string) :=
  handleDrop 10 (Some "u1") (drop 2 (take 3 six_pictures)) same_ms (batch_env "bbbb") wsA.
Definition wsC : Session (gset string) := complete_upload demo_url 0 0 wsB.
Definition wsD : Session (gset string) := complete_upload demo_url 0 1 wsC.
Definition wsE : Session (gset string) := finish_batch 0 wsD.

Lemma wsE_reachable : rtc (session_step demo_url 10) ws0 wsE.
Proof.
  apply (rtc_l _ _ wsA); [apply ss_choose; reflexivity|].
  apply (rtc_l _ _ wsB); [apply ss_drop|].
  apply (rtc_l _ _ wsC); [apply ss_completion; eapply cs_complete; [reflexivity|left|reflexivity|reflexivity]|].
  apply (rtc_l _ _ wsD); [apply ss_completion; eapply cs_complete; [reflexivity|left|reflexivity|reflexivity]|].
  apply (rtc_l _ _ wsE); [apply ss_completion; eapply cs_finish; reflexivity|].
  apply rtc_refl.
Defined.


(** One batch of two files named [cat.png], mapped in the same millisecond. *)
Definition wsX : Session (gset string) :=
  start_batch 10 (Some "u1") (Some [cat_png; cat_png]) same_ms (batch_env "k3x9") ws0.
Definition wsY : Session (gset string) := complete_upload demo_url 0 0 wsX.

(** Two files with one name mapped in the same millisecond share their
    [fileId]; when the first completes, [uploadingFiles] is empty and the
    "Uploading N files..." line disappears while the second upload is still
    in flight. *)
Theorem same_name_upload_hidden :
  uploadingFiles (ws wsX) = {["cat.png-1714000000000"]} ∧
  uploadingFiles (ws wsY) = ∅ ∧ (bt_pending <$> batches wsY) = [[1]].
Proof. vm_compute. split_and!; first [reflexivity|set_solver]. Qed.

(** ** Witnesses *)

Lemma session_settles_witness :
  ∃ s', rtc (completion_step demo_url) wsE s' ∧ batches s' = [] ∧
        isUploading (ws s') = false ∧ uploadingFiles (ws s') = ∅.
Proof. apply (session_settles demo_url 10 ∅ empty_editor), wsE_reachable. Defined.

(** Batch A alone: both uploads complete and the batch resolves. *)
Definition wsA1 : Session (gset string) := complete_upload demo_url 0 0 wsA.
Definition wsA2 : Session (gset string) := complete_upload demo_url 0 1 wsA1.
Definition wsA3 : Session (gset string) := finish_batch 0 wsA2.

Lemma guarded_session_respects_cap_witness : length (images (editor wsA3)) ≤ 10.
Proof.
  apply (guarded_session_respects_cap demo_url 10 ∅ empty_editor); [simpl; lia|].
  apply (rtc_l _ _ wsA); [split; [apply ss_choose; reflexivity|by left]|].
  apply (rtc_l _ _ wsA1);
    [split; [apply ss_completion; eapply cs_complete; [reflexivity|left|reflexivity|reflexivity]|right; vm_compute; lia]|].
  apply (rtc_l _ _ wsA2);
    [split; [apply ss_completion; eapply cs_complete; [reflexivity|left|reflexivity|reflexivity]|right; vm_compute; lia]|].
  apply (rtc_l _ _ wsA3); [split; [apply ss_completion; eapply cs_finish; reflexivity|right; vm_compute; lia]|].
  apply rtc_refl.
Defined.
