(* ===== verification/PostForm.v ===== *)
(** * PostForm: saving a post ([src/components/blog/post-form.tsx], [src/lib/types.ts])

    [handleSubmit] checks the signed-in user, makes sure the user has a
    profile ([ensureUserProfile]), builds [postData] from the form, updates
    the edited post or inserts a new one, and after a successful edit
    gathers the images of all the author's posts and calls
    [cleanupUnusedImages].  The database tables are [gmap]s keyed by id; the
    bucket is any [StorageClient].  Every request takes its failure as an
    [option string] from a [SubmitFaults] record; [generateSlug] (from
    [src/lib/utils/slug], not in the sources) is a section variable. *)

From S2P Require Import Prelude Storage ImageUpload ImageCleanup Tracker UploadWidget.

(** [src/lib/types.ts] *)
Module Types.
(** [interface Profile] *)
Record Profile := mkProfile {
  profile_id : string;
  email : string;
  full_name : option string;
  avatar_url : option string
}.

(** [interface Post] (the joined [profiles] and [post_images] are left out). *)
Record Post := mkPost {
  id : string;
  title : string;
  slug : string;
  content : string;
  excerpt : option string;
  featured_image : option string;
  images : option (list string);
  author_id : string;
  published : bool;
  created_at : string;
  updated_at : string
}.
End Types.

(** The signed-in user of [supabase.auth.getUser()]. *)
Record User := mkUser {
  user_id : string;
  user_email : string;
  meta_full_name : option string;    (** [user.user_metadata?.full_name] *)
  meta_avatar_url : option string    (** [user.user_metadata?.avatar_url] *)
}.

(** The form's state when it is submitted. *)
Record FormState := mkFormState {
  form_title : string;
  form_content : string;
  form_excerpt : string;
  form_published : bool;
  form_featuredImage : string;
  form_images : list string
}.

(** The database tables [posts] and [profiles]. *)
Record Db := mkDb {
  posts : gmap string Types.Post;
  profiles : gmap string Types.Profile
}.

(** The failure, if any, of each request [handleSubmit] makes. *)
Record SubmitFaults := mkSubmitFaults {
  fault_profile_select : option string;
  fault_profile_insert : option string;
  fault_save : option string;
  fault_user_posts : option string;
  fault_list : option string;
  fault_remove : option string
}.

Definition no_faults : SubmitFaults := mkSubmitFaults None None None None None None.

(** How [handleSubmit] ends (its toast and navigation). *)
Inductive SubmitOutcome :=
  | NotLoggedIn                                     (** ["You must be logged in to create a post"] *)
  | SubmitError (description : string)              (** a destructive toast *)
  | Saved (slug : string) (cleanup : option CleanupLog).  (** toast, [router.push(`/post/${slug}`)] *)

(** [s || ""] for optional metadata. *)
Definition or_empty_string (o : option string) : string :=
  match o with Some s => s | None => "" end.

(** [ensureUserProfile(user)]: look the profile up; insert it when there is
    none; an insert error is thrown as ["Failed to create user profile"]. *)
Definition ensureUserProfile (fsel fins : option string) (user : User)
    (profiles : gmap string Types.Profile) : option string * gmap string Types.Profile :=
  let existingProfile := match fsel with Some _ => None | None => profiles !! user_id user end in
  match existingProfile with
  | Some _ => (None, profiles)
  | None =>
      match fins with
      | Some _ => (Some "Failed to create user profile", profiles)
      | None =>
          if bool_decide (is_Some (profiles !! user_id user))
          then (Some "Failed to create user profile", profiles)   (* duplicate primary key *)
          else (None, <[user_id user := Types.mkProfile (user_id user) (user_email user)
                          (Some (or_empty_string (meta_full_name user)))
                          (Some (or_empty_string (meta_avatar_url user)))]> profiles)
      end
  end.

Section WithSlug.
Variable generateSlug : string → string.

(** [postData] *)
Record PostData := mkPostData {
  pd_title : string;
  pd_slug : string;
  pd_content : string;
  pd_excerpt : option string;
  pd_featured_image : option string;
  pd_images : option (list string);
  pd_published : bool;
  pd_author_id : string;
  pd_updated_at : string
}.

Definition postData (form : FormState) (userId now : string) : PostData :=
  mkPostData (form_title form) (generateSlug (form_title form)) (form_content form)
    (Js.or_null (form_excerpt form)) (Js.or_null (form_featuredImage form))
    (if bool_decide (0 < length (form_images form)) then Some (form_images form) else None)
    (form_published form) userId now.

(** [supabase.from("posts").update(postData).eq("id", id)]: the row with
    that id, if any, takes the new fields. *)
Definition updatePost (fault : option string) (pd : PostData) (postId : string)
    (ps : gmap string Types.Post) : option string * gmap string Types.Post :=
  match fault with
  | Some e => (Some e, ps)
  | None =>
      (None, alter (λ p, Types.mkPost (Types.id p) (pd_title pd) (pd_slug pd) (pd_content pd)
                           (pd_excerpt pd) (pd_featured_image pd) (pd_images pd) (pd_author_id pd)
                           (pd_published pd) (Types.created_at p) (pd_updated_at pd)) postId ps)
  end.

(** [supabase.from("posts").insert([postData])]: the database gives the row
    its id and [created_at]. *)
Definition insertPost (fault : option string) (pd : PostData) (newId now : string)
    (ps : gmap string Types.Post) : option string * gmap string Types.Post :=
  match fault with
  | Some e => (Some e, ps)
  | None =>
      (None, <[newId := Types.mkPost newId (pd_title pd) (pd_slug pd) (pd_content pd)
                         (pd_excerpt pd) (pd_featured_image pd) (pd_images pd) (pd_author_id pd)
                         (pd_published pd) now (pd_updated_at pd)]> ps)
  end.

(** The images a row of [select("images, featured_image")] contributes:
    [userPost.images] and a truthy [userPost.featured_image]. *)
Definition row_images (p : Types.Post) : list string :=
  Js.or_empty (Types.images p) ++
  match Types.featured_image p with
  | Some f => if Js.falsy f then [] else [f]
  | None => []
  end.

(** [.select("images, featured_image").eq("author_id", user.id)] *)
Definition userPosts (ps : gmap string Types.Post) (userId : string) : list Types.Post :=
  filter (λ p, Types.author_id p = userId) (snd <$> map_to_list ps).

(** [allUsedImages]: the form's images, then every row's images when the
    query returned data. *)
Definition allUsedImages (fault : option string) (form : FormState)
    (ps : gmap string Types.Post) (userId : string) : list string :=
  form_images form ++
  match fault with
  | Some _ => []
  | None => concat (row_images <$> userPosts ps userId)
  end.

Section WithStorage.
Context {B : Type} `{StorageClient B}.
Variable supabase_url : string.

(** [handleSubmit]: the outcome, the database and the bucket after it. *)
Definition handleSubmit (flt : SubmitFaults) (form : FormState) (isEditing : bool)
    (post : option Types.Post) (user : option User) (now newId : string) (db : Db) (b : B)
    : SubmitOutcome * Db * B :=
  match user with
  | None => (NotLoggedIn, db, b)
  | Some u =>
      let '(thrown, profiles') :=
        ensureUserProfile (fault_profile_select flt) (fault_profile_insert flt) u (profiles db) in
      match thrown with
      | Some msg => (SubmitError msg, mkDb (posts db) profiles', b)
      | None =>
          let pd := postData form (user_id u) now in
          let '(error, posts') :=
            match isEditing, post with
            | true, Some p => updatePost (fault_save flt) pd (Types.id p) (posts db)
            | _, _ => insertPost (fault_save flt) pd newId now (posts db)
            end in
          let db' := mkDb posts' profiles' in
          match error with
          | Some e => (SubmitError (if Js.falsy e then "Failed to save post" else e), db', b)
          | None =>
              if isEditing then
                let used := allUsedImages (fault_user_posts flt) form posts' (user_id u) in
                let '(log, b') := cleanupUnusedImages supabase_url (fault_list flt)
                                    (fault_remove flt) (user_id u) used b in
                (Saved (pd_slug pd) (Some log), db', b')
              else (Saved (pd_slug pd) None, db', b)
          end
      end
  end.
End WithStorage.
End WithSlug.

(** The editor's image state when it opens a post:
    [useState(post?.images || [])] and [useState(post?.featured_image || "")]. *)
Definition editor_of_post (p : Types.Post) : EditorImages :=
  mkEditorImages (Js.or_empty (Types.images p)) (or_empty_string (Types.featured_image p)).

(** The spec's reachable-image set of an author: the images and featured
    images of all the author's posts. *)
Definition reachable_images (ps : gmap string Types.Post) (userId : string) : list string :=
  concat (row_images <$> userPosts ps userId).

(** ** Properties *)

(** A row written from [postData] reopens with the form's images. *)
Lemma postData_reopens form userId now generateSlug rid created :
  editor_of_post (Types.mkPost rid (pd_title (postData generateSlug form userId now))
    (pd_slug (postData generateSlug form userId now)) (pd_content (postData generateSlug form userId now))
    (pd_excerpt (postData generateSlug form userId now))
    (pd_featured_image (postData generateSlug form userId now))
    (pd_images (postData generateSlug form userId now)) userId (form_published form) created now) =
  mkEditorImages (form_images form) (form_featuredImage form).
Proof.
  unfold editor_of_post, postData. simpl. f_equal.
  - case_bool_decide as Hl; [done|]. destruct (form_images form); [done|simpl in Hl; lia].
  - unfold Js.or_null, Js.falsy. case_bool_decide; by simplify_eq.
Qed.

(** The tables' integrity: each row is stored under its own id, each
    post's author has a profile (the foreign key [posts.author_id]). *)
Definition db_wf (db : Db) : Prop :=
  (∀ k p, posts db !! k = Some p → Types.id p = k ∧ is_Some (profiles db !! Types.author_id p)) ∧
  (∀ k pr, profiles db !! k = Some pr → Types.profile_id pr = k).

Lemma ensureUserProfile_wf fsel fins u ps thrown ps' :
  ensureUserProfile fsel fins u ps = (thrown, ps') →
  (∀ k pr, ps !! k = Some pr → Types.profile_id pr = k) →
  ps ⊆ ps' ∧ (∀ k pr, ps' !! k = Some pr → Types.profile_id pr = k) ∧
  (thrown = None → is_Some (ps' !! user_id u)).
Proof.
  unfold ensureUserProfile. intros He Hps.
  assert (∀ pr, ps !! user_id u = None → Types.profile_id pr = user_id u →
          ps ⊆ <[user_id u := pr]> ps ∧
          (∀ k pr', <[user_id u := pr]> ps !! k = Some pr' → Types.profile_id pr' = k) ∧
          is_Some (<[user_id u := pr]> ps !! user_id u)) as Hins.
  { intros pr Hnone Hid. split_and!; [by apply insert_subseteq| |by rewrite lookup_insert_eq].
    intros k pr'. rewrite lookup_insert_Some. intros [[<- <-]|[_ Hk]]; eauto. }
  destruct (match fsel with Some _ => None | None => ps !! user_id u end) as [pr0|] eqn:Hex.
  { destruct fsel; [done|]. simplify_eq. split_and!; [done|done|intros _; by eexists]. }
  destruct fins; [simplify_eq; naive_solver|].
  case_bool_decide as Hs; simplify_eq; [naive_solver|].
  destruct (Hins (Types.mkProfile (user_id u) (user_email u) (Some (or_empty_string (meta_full_name u)))
                  (Some (or_empty_string (meta_avatar_url u)))) (proj2 (eq_None_not_Some _) Hs) eq_refl)
    as (? & ? & ?). naive_solver.
Qed.

Section Laws.
Variable generateSlug : string → string.
Context {B : Type} `{StorageLaws B}.
Variable supabase_url : string.

Lemma allUsedImages_ok form ps userId :
  allUsedImages None form ps userId = form_images form ++ reachable_images ps userId.
Proof. reflexivity. Qed.

(** The cases of [handleSubmit] for a signed-in user: it stops before
    saving, or fails to save, and then the bucket is untouched; or it saves
    the rows [posts'] and, after an edit, runs the cleanup on them. *)
Lemma handleSubmit_cases flt form isEditing post u now newId db (b : B) out db' b' :
  handleSubmit generateSlug supabase_url flt form isEditing post (Some u) now newId db b = (out, db', b') →
  (b' = b ∧ (isEditing = false ∨ ∃ msg, out = SubmitError msg)) ∨
  (∃ log, isEditing = true ∧ out = Saved (generateSlug (form_title form)) (Some log) ∧
     cleanupUnusedImages supabase_url (fault_list flt) (fault_remove flt) (user_id u)
       (allUsedImages (fault_user_posts flt) form (posts db') (user_id u)) b = (log, b')).
Proof.
  unfold handleSubmit.
  destruct (ensureUserProfile _ _ u _) as [[msg|] profiles'].
  { intros; simplify_eq. left. eauto. }
  destruct (match isEditing, post with
            | true, Some p => _ | _, _ => _ end) as [[e|] posts'].
  { intros; simplify_eq. left. eauto. }
  destruct isEditing; [|intros; simplify_eq; left; eauto].
  destruct (cleanupUnusedImages _ _ _ _ _ b) as [log b1] eqn:Hc.
  intros; simplify_eq. right. eauto.
Qed.

(** The rows a save writes are stored under their ids and authored by
    the user; the other rows are unchanged. *)
Lemma save_rows_wf flt form isEditing post uid now newId (ps : gmap string Types.Post) error ps' :
  (∀ k p, ps !! k = Some p → Types.id p = k) →
  match isEditing, post with
  | true, Some p => updatePost (fault_save flt) (postData generateSlug form uid now) (Types.id p) ps
  | _, _ => insertPost (fault_save flt) (postData generateSlug form uid now) newId now ps
  end = (error, ps') →
  ∀ k p, ps' !! k = Some p → Types.id p = k ∧ (Types.author_id p = uid ∨ ps !! k = Some p).
Proof.
  intros Hps Hsave k p Hk.
  destruct isEditing, post as [q|]; unfold updatePost, insertPost in Hsave;
    destruct (fault_save flt); simplify_eq; eauto.
  all: try (apply lookup_insert_Some in Hk as [[<- <-]|[_ Hk]]; [by split; [|left]|eauto]).
  apply lookup_alter_Some in Hk as [(<- & x & Hx & ->)|[_ Hk]]; [|eauto].
  simpl. split; [by apply Hps|by left].
Qed.

(** C37: type invariant of the tables.  Whatever the requests answer,
    [handleSubmit] keeps every row under its own id and every post's
    author with a profile: the profile is ensured before any post is
    written, and the rows it writes are the user's. *)
Theorem handleSubmit_keeps_db_wf flt form isEditing post user now newId db (b : B) out db' b' :
  db_wf db →
  handleSubmit generateSlug supabase_url flt form isEditing post user now newId db b = (out, db', b') →
  db_wf db'.
Proof.
  intros [Hposts Hprof] Hs. unfold handleSubmit in Hs.
  destruct user as [u|]; [|by simplify_eq].
  destruct (ensureUserProfile _ _ u _) as [thrown profiles'] eqn:He.
  destruct (ensureUserProfile_wf _ _ _ _ _ _ He Hprof) as (Hsub & Hprof' & Hu).
  destruct thrown as [msg|].
  { simplify_eq. split; [|done]. intros k p Hk. destruct (Hposts k p Hk) as [? [pr Hpr]].
    split; [done|]. exists pr. by eapply lookup_weaken. }
  destruct (match isEditing, post with true, Some p => _ | _, _ => _ end) as [error posts'] eqn:Hsave.
  assert (db_wf (mkDb posts' profiles')) as Hwf.
  { split; [|done]. intros k p Hk. simpl in Hk.
    destruct (save_rows_wf _ _ _ _ _ _ _ _ _ _ (λ k p Hk, proj1 (Hposts k p Hk)) Hsave k p Hk)
      as [Hid [Ha|Hold]]; split; [done| |done|]; simpl.
    - rewrite Ha. by apply Hu.
    - destruct (Hposts k p Hold) as [_ [pr Hpr]]. exists pr. by eapply lookup_weaken. }
  destruct error; [by simplify_eq|]. destruct isEditing; [|by simplify_eq].
  destruct (cleanupUnusedImages _ _ _ _ _ b). by simplify_eq.
Qed.

(** C22: safety of the save-then-clean workflow.  When the query of the
    author's posts succeeds, a save never deletes an object whose
    canonical URL is referenced by any of the author's posts as they stand
    after the save, nor one of the form's own images. *)
Theorem save_keeps_referenced_images flt form isEditing post u now newId db (b : B) out db' b' :
  fault_user_posts flt = None →
  handleSubmit generateSlug supabase_url flt form isEditing post (Some u) now newId db b = (out, db', b') →
  ∀ n, fileUrl supabase_url (user_id u) n ∈ form_images form ++ reachable_images (posts db') (user_id u) →
       (user_id u +/+ n) ∈ objects b → (user_id u +/+ n) ∈ objects b'.
Proof.
  intros Hq Hs n Hused Hin.
  destruct (handleSubmit_cases _ _ _ _ _ _ _ _ _ _ _ _ Hs) as [[-> _]|(log & _ & _ & Hc)]; [done|].
  rewrite Hq, allUsedImages_ok in Hc.
  destruct (decide ((user_id u +/+ n) ∈ objects b')) as [|Hout]; [done|].
  destruct (cleanup_removed_orphan supabase_url _ _ _ _ _ _ _ Hc _ Hin Hout)
    as (n' & Heq & _ & Hn'). apply join_inj in Heq as <-. done.
Qed.

(** C23: a save that fails (the profile step or the database write)
    reports an error and never runs the cleanup: the bucket is unchanged. *)
Theorem failed_save_no_cleanup flt form isEditing post u now newId db (b : B) out db' b' :
  handleSubmit generateSlug supabase_url flt form isEditing post (Some u) now newId db b = (out, db', b') →
  (∀ slug c, out ≠ Saved slug c) → b' = b.
Proof.
  intros Hs Hns. destruct (handleSubmit_cases _ _ _ _ _ _ _ _ _ _ _ _ Hs) as [[-> _]|(log & _ & Hout & _)];
    [done|]. by destruct (Hns _ _ Hout).
Qed.

(** Round trip of the edit page for the images.  After a successful save of an
    existing post, reopening the saved row in the editor
    ([post?.images || []], [post?.featured_image || ""]) gives back exactly
    the images and featured image of the submitted form ([[]] and [""]
    were stored as [null]). *)
Theorem edit_save_reopens_same_images flt form p u now newId db (b : B) out db' b' slug c :
  posts db !! Types.id p = Some p →
  handleSubmit generateSlug supabase_url flt form true (Some p) (Some u) now newId db b = (out, db', b') →
  out = Saved slug c →
  ∃ row, posts db' !! Types.id p = Some row ∧
         editor_of_post row = mkEditorImages (form_images form) (form_featuredImage form).
Proof.
  intros Hp Hs Hout. unfold handleSubmit in Hs.
  destruct (ensureUserProfile _ _ u _) as [[msg|] profiles']; [by simplify_eq|].
  unfold updatePost in Hs. destruct (fault_save flt) as [e|]; [by simplify_eq|].
  destruct (cleanupUnusedImages _ _ _ _ _ b) as [log b1]. simplify_eq/=.
  rewrite lookup_alter. case_decide; [|congruence]. rewrite Hp.
  eexists. split; [reflexivity|]. apply postData_reopens.
Qed.
End Laws.

(** ** Concrete saves *)

Definition slugify (title : string) : string := title.

Definition u1 : User := mkUser "u1" "u1@example.com" (Some "Ann") None.
Definition url_of (n : string) : string := fileUrl demo_url "u1" n.

Definition post_with (pid n : string) : Types.Post :=
  Types.mkPost pid ("Post " +:+ pid) ("post-" +:+ pid) "..." None (Some (url_of n))
    (Some [url_of n]) "u1" true "2026-01-01" "2026-01-01".

Definition p1 : Types.Post := post_with "p1" "a.png".
Definition p2 : Types.Post := post_with "p2" "b.png".

Definition db0 : Db :=
  mkDb (<["p1" := p1]> (<["p2" := p2]> ∅))
       {["u1" := Types.mkProfile "u1" "u1@example.com" (Some "Ann") (Some "")]}.

Definition store0 : gset string := {["u1/a.png"; "u1/b.png"]}.

(** The editor of [p1] submitted unchanged. *)
Definition form_p1 : FormState :=
  mkFormState "Post p1" "..." "" true (url_of "a.png") [url_of "a.png"].

Definition save_p1 (flt : SubmitFaults) (b : gset string) : SubmitOutcome * Db * gset string :=
  handleSubmit slugify demo_url flt form_p1 true (Some p1) (Some u1) "2026-02-02" "new" db0 b.


(** Tab B has uploaded [x.png] into a new post it has not saved yet. *)
Definition form_new_x : FormState :=
  mkFormState "Post x" "..." "" true (url_of "x.png") [url_of "x.png"].

Definition race_final : SubmitOutcome * Db * gset string :=
  let '(_, db1, b1) := save_p1 no_faults ({["u1/x.png"]} ∪ store0) in
  handleSubmit slugify demo_url no_faults form_new_x false None (Some u1) "2026-02-03" "p3" db1 b1.




(** ** Witnesses *)

Lemma save_keeps_referenced_images_witness :
  ("u1" +/+ "a.png") ∈ objects (save_p1 no_faults store0).2.
Proof.
  apply (save_keeps_referenced_images slugify demo_url no_faults form_p1 true (Some p1) u1
           "2026-02-02" "new" db0 store0 (save_p1 no_faults store0).1.1 (save_p1 no_faults store0).1.2);
    [reflexivity|reflexivity|vm_compute; set_solver|vm_compute; set_solver].
Defined.

Definition db_down : SubmitFaults := mkSubmitFaults None None (Some "db down") None None None.

Lemma failed_save_no_cleanup_witness : (save_p1 db_down store0).2 = store0.
Proof.
  apply (failed_save_no_cleanup slugify demo_url db_down form_p1 true (Some p1) u1
           "2026-02-02" "new" db0 store0 (save_p1 db_down store0).1.1 (save_p1 db_down store0).1.2);
    [reflexivity|intros slug c; vm_compute; discriminate].
Defined.

Lemma edit_save_reopens_same_images_witness :
  ∃ row, posts (save_p1 no_faults store0).1.2 !! "p1" = Some row ∧
         editor_of_post row = mkEditorImages [url_of "a.png"] (url_of "a.png").
Proof.
  apply (edit_save_reopens_same_images slugify demo_url no_faults form_p1 p1 u1 "2026-02-02" "new"
           db0 store0 (save_p1 no_faults store0).1.1 (save_p1 no_faults store0).1.2
           (save_p1 no_faults store0).2 "Post p1" (Some NothingUnused));
    [reflexivity|reflexivity|vm_compute; reflexivity].
Defined.

(** [db_wf] checked on a concrete database, through the decidable
    [map_Forall]. *)
Lemma db_wf_of_check db :
  bool_decide (map_Forall (λ k p, Types.id p = k ∧ is_Some (profiles db !! Types.author_id p)) (posts db) ∧
               map_Forall (λ k pr, Types.profile_id pr = k) (profiles db)) = true →
  db_wf db.
Proof.
  intros [Hp Hpr]%bool_decide_eq_true_1. split; intros k x Hk.
  - by apply (Hp k x).
  - by apply (Hpr k x).
Qed.

Lemma handleSubmit_keeps_db_wf_witness : db_wf (save_p1 no_faults store0).1.2.
Proof.
  apply (handleSubmit_keeps_db_wf slugify demo_url no_faults form_p1 true (Some p1) (Some u1)
           "2026-02-02" "new" db0 store0 (save_p1 no_faults store0).1.1 _ (save_p1 no_faults store0).2).
  - apply db_wf_of_check. vm_compute. reflexivity.
  - reflexivity.
Defined.
