(* ===== verification/Pages.v ===== *)
(** * Pages: what the routes of [src/app] show, and to whom

    Each page is a function from the database, the signed-in user and the
    route parameters to a [PageResult]: [notFound()], [redirect(to)], or a
    view record listing what the page displays (its data, not its markup).
    [PostPage] is [src/app/post/[slug]/page.tsx], [HomePage]
    [src/app/page.tsx], [ProfilePage] [src/app/profile/page.tsx],
    [EditPostPage] and [WritePage] [src/app/write/...], [AuthPage]
    [src/app/auth/page.tsx], [PostCard] [src/components/blog/post-card.tsx],
    and [handlePreview] / [PreviewPage] the [localStorage] handoff between
    [post-form.tsx] and [src/app/preview/page.tsx].  Dates are shown through
    [toLocaleDateString]; the views keep the raw [created_at]. *)

From S2P Require Import Prelude Storage ImageUpload ImageCleanup Tracker PostForm.

Inductive PageResult (A : Type) : Type :=
  | NotFound                  (** [notFound()] *)
  | Redirect (to : string)    (** [redirect(to)] *)
  | Render (view : A).
Arguments NotFound {A}.
Arguments Redirect {A} _.
Arguments Render {A} _.

(** [.single()]: the row when exactly one row matches; otherwise the query
    errs and [data] is [null]. *)
Definition single {A} (rows : list A) : option A :=
  match rows with [r] => Some r | _ => None end.

Definition post_rows (ps : gmap string Types.Post) : list Types.Post := snd <$> map_to_list ps.

(** [post.profiles]: the author's profile joined on [author_id]. *)
Definition author_profile (db : Db) (p : Types.Post) : option Types.Profile :=
  profiles db !! Types.author_id p.

(** [profile.full_name || fallback] *)
Definition name_or (pr : Types.Profile) (fallback : string) : string :=
  match Types.full_name pr with
  | Some n => if Js.falsy n then fallback else n
  | None => fallback
  end.

(** [{x && <.. x ..>}] for an optional string: shown when truthy. *)
Definition truthy (o : option string) : option string :=
  match o with Some s => if Js.falsy s then None else Some s | None => None end.

(** [post.images && post.images.length > 1 && post.images.slice(1)] *)
Definition gallery (images : option (list string)) : list string :=
  match images with
  | Some l => if bool_decide (1 < length l) then tail l else []
  | None => []
  end.

(** What [PostPage] displays. *)
Record PostView := mkPostView {
  pv_date : string;                      (** [formatDate(post.created_at)] *)
  pv_byline : option string;             (** [full_name || email] when joined *)
  pv_draft_badge : bool;                 (** [!post.published] *)
  pv_title : string;
  pv_share_text : string;                (** [post.excerpt ?? post.title] *)
  pv_edit_link : option string;          (** [/write/${post.id}] when [isAuthor] *)
  pv_excerpt : option string;
  pv_featured : option string;
  pv_content : string;
  pv_gallery : list string;
  pv_author_card : option (string * string)  (** [full_name || "Anonymous"], [email] *)
}.

(** [PostPage({ params: { slug } })]; [user] is the signed-in user's id. *)
Definition PostPage (db : Db) (user : option string) (slug : string) : PageResult PostView :=
  match single (filter (λ p, Types.slug p = slug) (post_rows (posts db))) with
  | None => NotFound
  | Some post =>
      let isAuthor := match user with
                      | Some uid => bool_decide (uid = Types.author_id post)
                      | None => false
                      end in
      if negb (Types.published post) && negb isAuthor then NotFound
      else
        let prof := author_profile db post in
        Render (mkPostView (Types.created_at post)
                  ((λ pr, name_or pr (Types.email pr)) <$> prof)
                  (negb (Types.published post)) (Types.title post)
                  (match Types.excerpt post with Some e => e | None => Types.title post end)
                  (if isAuthor then Some ("/write/" +:+ Types.id post) else None)
                  (truthy (Types.excerpt post)) (truthy (Types.featured_image post))
                  (Types.content post) (gallery (Types.images post))
                  ((λ pr, (name_or pr "Anonymous", Types.email pr)) <$> prof))
  end.

(** [.order("created_at", { ascending: false })]: ISO timestamps compare
    as strings. *)
Definition newest_first (ps : list Types.Post) : list Types.Post :=
  merge_sort (λ p q, String.le (Types.created_at q) (Types.created_at p)) ps.

(** What [PostCard] displays. *)
Record CardView := mkCardView {
  card_featured : option string;
  card_date : string;
  card_byline : option string;
  card_link : string;                    (** [/post/${post.slug}] *)
  card_title : string;
  card_excerpt : option string;
  card_image_count : option nat;         (** [post.images.length] when non-empty *)
  card_draft_badge : bool
}.

Definition PostCard (db : Db) (post : Types.Post) : CardView :=
  mkCardView (truthy (Types.featured_image post)) (Types.created_at post)
    ((λ pr, name_or pr (Types.email pr)) <$> author_profile db post)
    ("/post/" +:+ Types.slug post) (Types.title post) (truthy (Types.excerpt post))
    (match Types.images post with
     | Some l => if bool_decide (0 < length l) then Some (length l) else None
     | None => None
     end)
    (negb (Types.published post)).

(** What [HomePage] displays. *)
Record HomeView := mkHomeView {
  home_write_button : bool;              (** ["Write Your Story"] for a signed-in user *)
  home_cards : list CardView
}.

Definition HomePage (db : Db) (user : option string) : PageResult HomeView :=
  Render (mkHomeView (bool_decide (is_Some user))
            (PostCard db <$> newest_first (filter (λ p, Types.published p = true)
                                              (post_rows (posts db))))).

(** What [ProfilePage] displays. *)
Record ProfileView := mkProfileView {
  profile_name : string;                 (** [full_name || "Anonymous User"] *)
  published_cards : list CardView;
  draft_cards : list CardView
}.

Definition ProfilePage (db : Db) (user : option User) : PageResult ProfileView :=
  match user with
  | None => Redirect "/auth"
  | Some u =>
      let ps := newest_first (filter (λ p, Types.author_id p = user_id u) (post_rows (posts db))) in
      let publishedPosts := filter (λ p, Types.published p = true) ps in
      let draftPosts := filter (λ p, Types.published p = false) ps in
      Render (mkProfileView
                (match meta_full_name u with
                 | Some n => if Js.falsy n then "Anonymous User" else n
                 | None => "Anonymous User"
                 end)
                (PostCard db <$> publishedPosts) (PostCard db <$> draftPosts))
  end.

(** [EditPostPage({ params: { id } })]: the editor opened on the post. *)
Definition EditPostPage (db : Db) (user : option string) (postId : string)
    : PageResult (Types.Post * EditorImages) :=
  match user with
  | None => Redirect "/auth"
  | Some uid =>
      match single (filter (λ p, Types.id p = postId ∧ Types.author_id p = uid)
                      (post_rows (posts db))) with
      | None => NotFound
      | Some post => Render (post, editor_of_post post)
      end
  end.

(** [WritePage]: the editor of a new post. *)
Definition WritePage (user : option string) : PageResult EditorImages :=
  match user with None => Redirect "/auth" | Some _ => Render empty_editor end.

(** [AuthPage]: the sign-in form, or home for a signed-in user. *)
Definition AuthPage (user : option string) : PageResult unit :=
  match user with Some _ => Redirect "/" | None => Render tt end.

(** [interface PreviewData] of the preview page. *)
Record PreviewData := mkPreviewData {
  prev_title : string;
  prev_content : string;
  prev_excerpt : string;
  prev_featured_image : string;
  prev_images : list string;
  prev_published : bool
}.

(** [localStorage], holding the values [JSON.stringify] wrote (for this
    record of strings, a list and a boolean, [JSON.parse] gives them back). *)
Abbreviation LocalStorage := (gmap string PreviewData).

(** [handlePreview]: store the form under ["post-preview"]. *)
Definition handlePreview (form : FormState) (ls : LocalStorage) : LocalStorage :=
  <["post-preview" := mkPreviewData (form_title form) (form_content form) (form_excerpt form)
                        (form_featuredImage form) (form_images form) (form_published form)]> ls.

(** What [PreviewPage] displays. *)
Record PreviewView := mkPreviewView {
  preview_draft_badge : bool;
  preview_title : string;
  preview_excerpt : option string;
  preview_featured : option string;
  preview_content : string;
  preview_gallery : list string
}.

(** [PreviewPage]: [None] is "No preview data available". *)
Definition PreviewPage (ls : LocalStorage) : option PreviewView :=
  match ls !! "post-preview" with
  | None => None
  | Some d =>
      Some (mkPreviewView (negb (prev_published d)) (prev_title d)
              (truthy (Some (prev_excerpt d))) (truthy (Some (prev_featured_image d)))
              (prev_content d) (gallery (Some (prev_images d))))
  end.

(** ** The layout and the static pages *)

(** The links of [Navbar] ([src/components/layout/navbar.tsx]); [UserNav]
    is the signed-in user's menu (its component is not in the sources). *)
Inductive NavLink := NavHome | NavWrite | NavUserMenu | NavSignIn.

Definition nav_target (l : NavLink) : option string :=
  match l with
  | NavHome => Some "/" | NavWrite => Some "/write" | NavSignIn => Some "/auth"
  | NavUserMenu => None
  end.

Definition Navbar (user : option string) : list NavLink :=
  NavHome :: match user with Some _ => [NavWrite; NavUserMenu] | None => [NavSignIn] end.

(** [ShareButton]'s [handleShare]: [navigator.share] when the browser has
    it (a rejection, such as the user cancelling, is swallowed), otherwise
    [navigator.clipboard.writeText(url)]. *)
Inductive ShareEffect := SharedNatively | ShareDismissed | CopiedToClipboard (url : string).

Definition handleShare (hasShare shareRejects : bool) (url : string) : ShareEffect :=
  if hasShare then (if shareRejects then ShareDismissed else SharedNatively)
  else CopiedToClipboard url.

(** The link targets of the static pages: [NotFound], [ConfirmPage] and
    [AuthCodeErrorPage]. *)
Definition NotFound_links : list string := ["/"].
Definition ConfirmPage_links : list string := ["/"; "/write"].
Definition AuthCodeErrorPage_links : list string := ["/auth"; "/"].

(** Whether a route renders for a visitor rather than redirecting. *)
Definition renders {A} (r : PageResult A) : bool :=
  match r with Render _ => true | _ => false end.

(** ** Properties *)

(** Every link the navbar shows lands on a page that renders for the same
    visitor: "Write" only for a signed-in user, "Sign In" only for a
    signed-out one. *)
Lemma navbar_links_render db user l :
  l ∈ Navbar user →
  match nav_target l with
  | Some "/" => renders (HomePage db user) = true
  | Some "/write" => renders (WritePage user) = true
  | Some "/auth" => renders (AuthPage user) = true
  | _ => True
  end.
Proof. destruct user; simpl; intros Hl; repeat (apply elem_of_cons in Hl as [->|Hl]); set_solver. Qed.

Lemma single_Some {A} (l : list A) x : single l = Some x → l = [x].
Proof. destruct l as [|y [|z l]]; simpl; congruence. Qed.

Lemma single_filter_elem {A} (P : A → Prop) `{∀ x, Decision (P x)} l x :
  single (filter P l) = Some x → x ∈ l ∧ P x.
Proof.
  intros Hs%single_Some. assert (x ∈ filter P l) as Hx by (rewrite Hs; left).
  by apply list_elem_of_filter in Hx as [? ?].
Qed.

Lemma Forall_filter_self {A} (P : A → Prop) `{∀ x, Decision (P x)} l : Forall P (filter P l).
Proof. apply Forall_forall. intros x Hx. by apply list_elem_of_filter in Hx as [? _]. Qed.

#[local] Instance newest_first_total : Total (λ p q : Types.Post, String.le (Types.created_at q) (Types.created_at p)).
Proof. intros p q. destruct (String.le_total (Types.created_at q) (Types.created_at p)); auto. Qed.

#[local] Instance newest_first_trans : Transitive (λ p q : Types.Post, String.le (Types.created_at q) (Types.created_at p)).
Proof. intros p q r Hpq Hqr. simpl in *. by trans (Types.created_at q). Qed.

Lemma newest_first_spec ps :
  newest_first ps ≡ₚ ps ∧
  Sorted (λ p q, String.le (Types.created_at q) (Types.created_at p)) (newest_first ps).
Proof. split; [apply merge_sort_Permutation|apply Sorted_merge_sort; apply _]. Qed.

(** C29: a draft is shown only to its author.  Whenever the post page
    renders, the post it shows is the one row with that slug, and it is
    published or the signed-in user is its author. *)
Theorem post_page_drafts_only_for_author db user slug v :
  PostPage db user slug = Render v →
  ∃ post, post ∈ post_rows (posts db) ∧ Types.slug post = slug ∧ pv_title v = Types.title post ∧
    (Types.published post = true ∨ user = Some (Types.author_id post)).
Proof.
  unfold PostPage. destruct (single _) as [post|] eqn:Hs; [|done].
  apply single_filter_elem in Hs as [Hin Hslug].
  destruct (Types.published post) eqn:Hp; simpl.
  - intros [= <-]. eauto 10.
  - destruct user as [uid|]; simpl; [|done]. case_bool_decide; simpl; [|done].
    intros [= <-]. subst. eauto 10.
Qed.

(** A published post with a unique slug renders for every visitor,
    without the draft badge, and offers the edit link exactly to its
    author. *)
Theorem post_page_published_visible db user slug post :
  single (filter (λ p, Types.slug p = slug) (post_rows (posts db))) = Some post →
  Types.published post = true →
  ∃ v, PostPage db user slug = Render v ∧ pv_draft_badge v = false ∧
       (pv_edit_link v = Some ("/write/" +:+ Types.id post) ↔ user = Some (Types.author_id post)).
Proof.
  intros Hs Hp. unfold PostPage. rewrite Hs, Hp. simpl. eexists. split; [reflexivity|].
  split; [done|]. simpl. destruct user as [uid|]; [|naive_solver].
  case_bool_decide; naive_solver.
Qed.

(** C31: the home feed lists exactly the published posts, newest first. *)
Theorem home_feed_published_only db user v :
  HomePage db user = Render v →
  ∃ ps, home_cards v = PostCard db <$> ps ∧
    (∀ p, p ∈ ps ↔ p ∈ post_rows (posts db) ∧ Types.published p = true) ∧
    Sorted (λ p q, String.le (Types.created_at q) (Types.created_at p)) ps.
Proof.
  unfold HomePage. intros [= <-]. simpl.
  destruct (newest_first_spec (filter (λ p, Types.published p = true) (post_rows (posts db))))
    as [Hperm Hsorted].
  eexists. split; [reflexivity|]. split; [|done].
  intros p. rewrite Hperm, list_elem_of_filter. naive_solver.
Qed.

(** C32: the profile page splits the user's posts into published posts and
    drafts: every post of the user is in exactly one list, drafts carry
    the draft badge and published posts do not. *)
Theorem profile_partitions_posts db u v :
  ProfilePage db (Some u) = Render v →
  ∃ pub drafts, published_cards v = PostCard db <$> pub ∧ draft_cards v = PostCard db <$> drafts ∧
    pub ++ drafts ≡ₚ filter (λ p, Types.author_id p = user_id u) (post_rows (posts db)) ∧
    Forall (λ p, Types.published p = true) pub ∧ Forall (λ p, Types.published p = false) drafts.
Proof.
  unfold ProfilePage. intros [= <-]. simpl.
  set (mine := filter (λ p, Types.author_id p = user_id u) (post_rows (posts db))).
  destruct (newest_first_spec mine) as [Hperm _].
  exists (filter (λ p, Types.published p = true) (newest_first mine)),
         (filter (λ p, Types.published p = false) (newest_first mine)).
  split; [done|]. split; [done|]. split; [|split; apply Forall_filter_self].
  etrans; [|exact Hperm].
  rewrite (list_filter_iff (λ p, Types.published p = false) (λ p, ¬ Types.published p = true));
    [apply filter_app_complement|].
  intros p. destruct (Types.published p); naive_solver.
Qed.

(** C33: the edit page opens only a post of the signed-in user: the post
    it renders has the requested id and the user as author, and the editor
    starts from that row's images. *)
Theorem edit_page_own_posts_only db uid postId p e :
  EditPostPage db (Some uid) postId = Render (p, e) →
  p ∈ post_rows (posts db) ∧ Types.id p = postId ∧ Types.author_id p = uid ∧ e = editor_of_post p.
Proof.
  unfold EditPostPage. destruct (single _) as [post|] eqn:Hs; [|done].
  apply single_filter_elem in Hs as [Hin [Hid Hauth]]. intros [= <- <-]. done.
Qed.

(** The preview view of a stored form. *)
Definition preview_of_form (form : FormState) : PreviewView :=
  mkPreviewView (negb (form_published form)) (form_title form)
    (truthy (Some (form_excerpt form))) (truthy (Some (form_featuredImage form)))
    (form_content form) (gallery (Some (form_images form))).

(** The preview round trip: after [handlePreview] the preview page
    shows the form's title, content and draft state, its featured image
    when one is set, and the images after the first as the gallery. *)
Theorem preview_roundtrip form ls :
  PreviewPage (handlePreview form ls) = Some (preview_of_form form) ∧
  preview_title (preview_of_form form) = form_title form ∧
  (preview_featured (preview_of_form form) = None ↔ form_featuredImage form = "") ∧
  preview_gallery (preview_of_form form) =
    (if bool_decide (1 < length (form_images form)) then drop 1 (form_images form) else []).
Proof.
  unfold PreviewPage, handlePreview. rewrite lookup_insert_eq. split_and!; [done|done| |].
  - simpl. unfold Js.falsy. case_bool_decide; naive_solver.
  - simpl. by destruct (form_images form).
Qed.

(** [localStorage] holds one unscoped preview slot: whichever editor
    previews last decides what every preview page shows; the earlier
    editor's draft is gone. *)
Theorem preview_last_writer_wins form1 form2 ls :
  PreviewPage (handlePreview form2 (handlePreview form1 ls)) = Some (preview_of_form form2).
Proof. unfold PreviewPage, handlePreview. by rewrite insert_insert_eq, lookup_insert_eq. Qed.

(** ** Scenarios across the editor, the save and the post page *)

(** Two images uploaded in one batch into a new post, then saved. *)
Definition batch_editor : EditorImages :=
  run_from empty_editor empty_editor [AddImage (url_of "a.png"); AddImage (url_of "b.png")].

Definition batch_form : FormState :=
  mkFormState "Trip" "..." "" true (featuredImage batch_editor) (images batch_editor).

Definition batch_saved : SubmitOutcome * Db * gset string :=
  handleSubmit slugify demo_url no_faults batch_form false None (Some u1) "2026-03-01" "p9"
    db0 ({["u1/a.png"; "u1/b.png"]} ∪ store0).


(** Two new posts saved with the same title get the same slug. *)
Definition same_slug_db : Db :=
  let '(_, db1, b1) := handleSubmit slugify demo_url no_faults
                         (mkFormState "Hello" "one" "" true "" []) false None (Some u1)
                         "2026-03-01" "h1" db0 store0 in
  (handleSubmit slugify demo_url no_faults (mkFormState "Hello" "two" "" true "" []) false None
     (Some u1) "2026-03-02" "h2" db1 b1).1.2.


(** ** Witnesses *)

(** [p1] of [db0] as its author sees it. *)
Definition p1_view : PostView :=
  mkPostView "2026-01-01" (Some "Ann") false "Post p1" "Post p1" (Some "/write/p1") None
    (Some (url_of "a.png")) "..." [] (Some ("Ann", "u1@example.com")).

Lemma post_page_drafts_only_for_author_witness :
  ∃ post, post ∈ post_rows (posts db0) ∧ Types.slug post = "post-p1" ∧
    pv_title p1_view = Types.title post ∧
    (Types.published post = true ∨ Some "u1" = Some (Types.author_id post)).
Proof. apply (post_page_drafts_only_for_author db0 (Some "u1") "post-p1" p1_view). vm_compute. reflexivity. Defined.

Lemma post_page_published_visible_witness :
  ∃ v, PostPage db0 None "post-p2" = Render v ∧ pv_draft_badge v = false ∧
       (pv_edit_link v = Some ("/write/" +:+ Types.id p2) ↔ None = Some (Types.author_id p2)).
Proof. apply (post_page_published_visible db0 None "post-p2" p2); vm_compute; reflexivity. Defined.

Lemma home_feed_published_only_witness :
  ∃ ps, home_cards (mkHomeView false [PostCard db0 p1; PostCard db0 p2]) = PostCard db0 <$> ps ∧
    (∀ p, p ∈ ps ↔ p ∈ post_rows (posts db0) ∧ Types.published p = true) ∧
    Sorted (λ p q, String.le (Types.created_at q) (Types.created_at p)) ps.
Proof. apply (home_feed_published_only db0 None). vm_compute. reflexivity. Defined.

Lemma profile_partitions_posts_witness :
  ∃ pub drafts, published_cards (mkProfileView "Ann" [PostCard db0 p1; PostCard db0 p2] []) = PostCard db0 <$> pub ∧
    draft_cards (mkProfileView "Ann" [PostCard db0 p1; PostCard db0 p2] []) = PostCard db0 <$> drafts ∧
    pub ++ drafts ≡ₚ filter (λ p, Types.author_id p = user_id u1) (post_rows (posts db0)) ∧
    Forall (λ p, Types.published p = true) pub ∧ Forall (λ p, Types.published p = false) drafts.
Proof. apply (profile_partitions_posts db0 u1). vm_compute. reflexivity. Defined.

Lemma edit_page_own_posts_only_witness :
  p1 ∈ post_rows (posts db0) ∧ Types.id p1 = "p1" ∧ Types.author_id p1 = "u1" ∧
    editor_of_post p1 = editor_of_post p1.
Proof. apply (edit_page_own_posts_only db0 "u1" "p1"). vm_compute. reflexivity. Defined.
