(* ===== verification/EditorSession.v ===== *)
(** * EditorSession: the post editor as a whole

    [PostForm] of [src/components/blog/post-form.tsx] beyond its handlers:
    the state it initialises from the post being edited ([useState] with
    [post?.x || default], and the [useEffect] on [originalImages]), the
    fields' [onChange] handlers, the tracker, the Preview and Cancel
    buttons, and the submit button, disabled while [isLoading] and blocked
    by the browser while a [required] field is empty.  [handleSubmit] runs
    as one step ([PostForm.handleSubmit]); its [finally] leaves
    [isLoading] false.  The step relation [editor_step] keeps the database,
    the bucket, [localStorage] and the route beside the form. *)

From S2P Require Import Prelude Storage ImageUpload ImageCleanup Tracker PostForm Pages.

(** The component's state. *)
Record PostFormState := mkPostFormState {
  pf_isLoading : bool;
  pf_title : string;
  pf_content : string;
  pf_excerpt : string;
  pf_published : bool;
  pf_images : EditorImages;        (** [images] and [featuredImage] *)
  pf_originalImages : list string
}.

(** [useState(post?.x || default)] for each field, then the [useEffect]
    that copies [post.images] into [originalImages]. *)
Definition initial_post_form (post : option Types.Post) : PostFormState :=
  match post with
  | None => mkPostFormState false "" "" "" false empty_editor []
  | Some p =>
      mkPostFormState false (Types.title p) (Types.content p)
        (or_empty_string (Types.excerpt p)) (Types.published p) (editor_of_post p)
        (Js.or_empty (Types.images p))
  end.

(** The values [handleSubmit] and [handlePreview] read. *)
Definition form_of (st : PostFormState) : FormState :=
  mkFormState (pf_title st) (pf_content st) (pf_excerpt st) (pf_published st)
    (featuredImage (pf_images st)) (images (pf_images st)).

(** What the user does in the form. *)
Inductive FormEvent :=
  | EditTitle (v : string)                 (** [setTitle(e.target.value)] *)
  | EditExcerpt (v : string)
  | EditContent (v : string)
  | SetPublished (v : bool)                (** [onCheckedChange={setPublished}] *)
  | TrackImage (e : TrackerEvent).         (** [onImageAdd] / [onImageRemove] *)

Definition on_event (st : PostFormState) (e : FormEvent) : PostFormState :=
  let '(mkPostFormState l t c x p im o) := st in
  match e with
  | EditTitle v => mkPostFormState l v c x p im o
  | EditExcerpt v => mkPostFormState l t c v p im o
  | EditContent v => mkPostFormState l t v x p im o
  | SetPublished v => mkPostFormState l t c x v im o
  | TrackImage ev => mkPostFormState l t c x p (render im (handler im ev)) o
  end.

(** The editor with what surrounds it. *)
Record EditorWorld (B : Type) := mkEditorWorld {
  ew_form : PostFormState;
  ew_db : Db;
  ew_bucket : B;
  ew_storage : LocalStorage;
  ew_route : string;
  ew_outcomes : list SubmitOutcome
}.
Arguments mkEditorWorld {B} _ _ _ _ _ _.
Arguments ew_form {B} _.
Arguments ew_db {B} _.
Arguments ew_bucket {B} _.
Arguments ew_storage {B} _.
Arguments ew_route {B} _.
Arguments ew_outcomes {B} _.

(** [router.push(`/post/${slug}`)] after a save; no navigation otherwise. *)
Definition route_after (out : SubmitOutcome) (route : string) : string :=
  match out with Saved slug _ => "/post/" +:+ slug | _ => route end.

Section Steps.
Variable generateSlug : string → string.
Context {B : Type} `{StorageClient B}.
Variable supabase_url : string.
Variable post : option Types.Post.
Variable isEditing : bool.

(** The submit button: [disabled={isLoading}], and the browser refuses to
    submit while [title] or [content] is empty. *)
Definition submit_allowed (st : PostFormState) : bool :=
  negb (pf_isLoading st) && negb (Js.falsy (pf_title st)) && negb (Js.falsy (pf_content st)).

(** [handleSubmit] from [setIsLoading(true)] to its [finally]. *)
Definition submit (flt : SubmitFaults) (user : option User) (now newId : string)
    (w : EditorWorld B) : EditorWorld B :=
  let '(out, db', b') := handleSubmit generateSlug supabase_url flt (form_of (ew_form w)) isEditing
                           post user now newId (ew_db w) (ew_bucket w) in
  mkEditorWorld (ew_form w) db' b' (ew_storage w) (route_after out (ew_route w))
    (ew_outcomes w ++ [out]).

Inductive editor_step : EditorWorld B → EditorWorld B → Prop :=
  | es_event w e :
      editor_step w (mkEditorWorld (on_event (ew_form w) e) (ew_db w) (ew_bucket w) (ew_storage w)
                       (ew_route w) (ew_outcomes w))
  | es_preview w :
      editor_step w (mkEditorWorld (ew_form w) (ew_db w) (ew_bucket w)
                       (handlePreview (form_of (ew_form w)) (ew_storage w)) (ew_route w) (ew_outcomes w))
  | es_submit w flt user now newId :
      submit_allowed (ew_form w) = true → editor_step w (submit flt user now newId w)
  | es_cancel w :                       (** [router.back()] *)
      editor_step w (mkEditorWorld (ew_form w) (ew_db w) (ew_bucket w) (ew_storage w) "back"
                       (ew_outcomes w)).
End Steps.

(** ** Properties *)

(** [x || null] read back with [x || ""] gives [x]. *)
Lemma or_empty_string_or_null x : or_empty_string (Js.or_null x) = x.
Proof. unfold Js.or_null, Js.falsy. case_bool_decide; by subst. Qed.

Section Laws.
Variable generateSlug : string → string.
Context {B : Type} `{StorageLaws B}.
Variable supabase_url : string.

(** C24: round trip of the edit page.  After a successful save of an
    existing post, opening the saved row in the editor again restores the
    form exactly as it was submitted: title, content, excerpt, published
    flag, images and featured image ([""], [[]] and the empty excerpt were
    stored as [null] and read back as such); [originalImages] becomes the
    saved images. *)
Theorem save_then_reopen_restores_form flt st p u now newId db (b : B) out db' b' slug c :
  posts db !! Types.id p = Some p →
  handleSubmit generateSlug supabase_url flt (form_of st) true (Some p) (Some u) now newId db b =
    (out, db', b') →
  out = Saved slug c →
  ∃ row, posts db' !! Types.id p = Some row ∧
    initial_post_form (Some row) =
      mkPostFormState false (pf_title st) (pf_content st) (pf_excerpt st) (pf_published st)
        (pf_images st) (images (pf_images st)).
Proof.
  intros Hp Hs Hout. unfold handleSubmit in Hs.
  destruct (ensureUserProfile _ _ u _) as [[msg|] profiles']; [by simplify_eq|].
  unfold updatePost in Hs. destruct (fault_save flt) as [e|]; [by simplify_eq|].
  destruct (cleanupUnusedImages _ _ _ _ _ b) as [log b1]. simplify_eq/=.
  rewrite lookup_alter. case_decide; [|congruence]. rewrite Hp.
  eexists. split; [reflexivity|]. simpl.
  pose proof (postData_reopens (form_of st) (user_id u) now generateSlug (Types.id p) (Types.created_at p))
    as Hre.
  unfold editor_of_post in Hre |- *. simpl in Hre |- *. rewrite Hre.
  rewrite or_empty_string_or_null. destruct (pf_images st) as [ims f]. simpl.
  f_equal. clear Hre. unfold Js.or_empty.
  destruct ims as [|x ims]; [done|]. rewrite bool_decide_true by (simpl; lia). done.
Qed.
End Laws.

(** ** Witnesses *)

(** [p1] opened in the editor and saved unchanged. *)
Definition reopen_save : SubmitOutcome * Db * gset string :=
  handleSubmit slugify demo_url no_faults (form_of (initial_post_form (Some p1))) true (Some p1)
    (Some u1) "2026-02-02" "new" db0 store0.

Lemma save_then_reopen_restores_form_witness :
  ∃ row, posts reopen_save.1.2 !! "p1" = Some row ∧
    initial_post_form (Some row) =
      mkPostFormState false "Post p1" "..." "" true
        (mkEditorImages [url_of "a.png"] (url_of "a.png")) [url_of "a.png"].
Proof.
  apply (save_then_reopen_restores_form slugify demo_url no_faults (initial_post_form (Some p1)) p1 u1
           "2026-02-02" "new" db0 store0 reopen_save.1.1 reopen_save.1.2 reopen_save.2
           "Post p1" (Some NothingUnused)); [reflexivity|reflexivity|vm_compute; reflexivity].
Defined.
