(* ===== verification/Auth.v ===== *)
(** * Auth: the sign-in and sign-up form

    [src/components/auth/auth-form.tsx]: the [AuthForm] component, its
    React state ([isLoading], [showEmailSent], [userEmail]), its own
    [ensureUserProfile], and the three async handlers [handleSignUp],
    [handleSignIn] and [handleResendConfirmation], with the "Back to sign
    up" button.  The authentication provider is external: its answers are
    inputs ([AuthResponse]), like the network faults of the other files.
    Each async handler is split at its [await] into a start (which sets
    [isLoading] and records the request in flight) and a completion; the
    step relation [auth_step] interleaves user events and completions under
    the guards the rendered form imposes ([disabled={isLoading}], which card
    is shown, [required] inputs). *)

From S2P Require Import Prelude PostForm.

(** The component's state. *)
Record AuthState := mkAuthState {
  isLoading : bool;
  showEmailSent : bool;
  userEmail : string
}.

Definition initial_auth_state : AuthState := mkAuthState false false "".

(** The toasts of the component. *)
Inductive AuthToast :=
  | ToastAuthError (message : string)     (** ["Error"], [error.message] *)
  | ToastCheckEmail                       (** ["Check your email"] *)
  | ToastWelcome                          (** ["Welcome!"] *)
  | ToastWelcomeBack                      (** ["Welcome back!"] *)
  | ToastEmailSent.                       (** ["Email sent"] *)

(** The provider's answer to [signUp] and [signInWithPassword]:
    [{ data: { user, session }, error }]. *)
Inductive AuthResponse :=
  | AuthErr (message : string)
  | AuthData (user : option User) (session : bool).

(** An [await] in flight: the handler and the values it captured. *)
Inductive Request :=
  | SignUpReq (email : string)
  | SignInReq
  | ResendReq (email : string).

(** The component with the tables and the browser around it. *)
Record AuthWorld := mkAuthWorld {
  auth_state : AuthState;
  in_flight : option Request;
  auth_profiles : gmap string Types.Profile;
  auth_toasts : list AuthToast;
  auth_route : string                     (** [router.push] target *)
}.

(** [ensureUserProfile] of the form: as in [post-form.tsx], a failed lookup
    reads as a missing profile; but every error is logged and swallowed. *)
Definition auth_ensureUserProfile (fsel fins : option string) (user : User)
    (profiles : gmap string Types.Profile) : gmap string Types.Profile :=
  let existingProfile := match fsel with Some _ => None | None => profiles !! user_id user end in
  match existingProfile with
  | Some _ => profiles
  | None =>
      match fins with
      | Some _ => profiles                 (* console.error *)
      | None =>
          if bool_decide (is_Some (profiles !! user_id user))
          then profiles                    (* duplicate key, console.error *)
          else <[user_id user := Types.mkProfile (user_id user) (user_email user)
                   (Some (or_empty_string (meta_full_name user)))
                   (Some (or_empty_string (meta_avatar_url user)))]> profiles
      end
  end.

Definition set_loading (b : bool) (w : AuthWorld) : AuthWorld :=
  mkAuthWorld (mkAuthState b (showEmailSent (auth_state w)) (userEmail (auth_state w)))
    (in_flight w) (auth_profiles w) (auth_toasts w) (auth_route w).

Definition toast (t : AuthToast) (w : AuthWorld) : AuthWorld :=
  mkAuthWorld (auth_state w) (in_flight w) (auth_profiles w) (auth_toasts w ++ [t]) (auth_route w).

(** [ensureUserProfile], a toast, then [router.push("/")]. *)
Definition signed_in (fsel fins : option string) (u : User) (t : AuthToast) (w : AuthWorld) : AuthWorld :=
  mkAuthWorld (auth_state w) (in_flight w) (auth_ensureUserProfile fsel fins u (auth_profiles w))
    (auth_toasts w ++ [t]) "/".

(** The start of a handler: [setIsLoading(true)] and the call. *)
Definition start (r : Request) (w : AuthWorld) : AuthWorld :=
  let w := set_loading true w in
  mkAuthWorld (auth_state w) (Some r) (auth_profiles w) (auth_toasts w) (auth_route w).

Definition finish (w : AuthWorld) : AuthWorld :=
  let w := set_loading false w in
  mkAuthWorld (auth_state w) None (auth_profiles w) (auth_toasts w) (auth_route w).

(** [handleSignUp] after [await supabase.auth.signUp(..)]. *)
Definition handleSignUp_done (email : string) (resp : AuthResponse) (fsel fins : option string)
    (w : AuthWorld) : AuthWorld :=
  finish
    (match resp with
     | AuthErr m => toast (ToastAuthError m) w
     | AuthData (Some u) false =>
         toast ToastCheckEmail
           (mkAuthWorld (mkAuthState (isLoading (auth_state w)) true email)
              (in_flight w) (auth_profiles w) (auth_toasts w) (auth_route w))
     | AuthData (Some u) true => signed_in fsel fins u ToastWelcome w
     | AuthData None _ => w
     end).

(** [handleSignIn] after [await supabase.auth.signInWithPassword(..)]. *)
Definition handleSignIn_done (resp : AuthResponse) (fsel fins : option string) (w : AuthWorld)
    : AuthWorld :=
  finish
    (match resp with
     | AuthErr m => toast (ToastAuthError m) w
     | AuthData (Some u) _ => signed_in fsel fins u ToastWelcomeBack w
     | AuthData None _ => w
     end).

(** [handleResendConfirmation]: nothing without an address. *)
Definition handleResendConfirmation (w : AuthWorld) : AuthWorld :=
  if Js.falsy (userEmail (auth_state w)) then w
  else start (ResendReq (userEmail (auth_state w))) w.

Definition handleResendConfirmation_done (err : option string) (w : AuthWorld) : AuthWorld :=
  finish (match err with
          | Some m => toast (ToastAuthError m) w
          | None => toast ToastEmailSent w
          end).

(** The "Back to sign up" button. *)
Definition back_to_sign_up (w : AuthWorld) : AuthWorld :=
  mkAuthWorld (mkAuthState (isLoading (auth_state w)) false "") (in_flight w) (auth_profiles w)
    (auth_toasts w) (auth_route w).

(** The events of the mounted form at ["/auth"].  The submit buttons and
    the resend button are disabled while loading; the form's inputs are
    [required]; the email card replaces the tabs when [showEmailSent]. *)
Inductive auth_step : AuthWorld → AuthWorld → Prop :=
  | step_sign_up w email :
      auth_route w = "/auth" → isLoading (auth_state w) = false →
      showEmailSent (auth_state w) = false → email ≠ "" →
      auth_step w (start (SignUpReq email) w)
  | step_sign_in w :
      auth_route w = "/auth" → isLoading (auth_state w) = false →
      showEmailSent (auth_state w) = false →
      auth_step w (start SignInReq w)
  | step_resend w :
      auth_route w = "/auth" → isLoading (auth_state w) = false →
      showEmailSent (auth_state w) = true →
      auth_step w (handleResendConfirmation w)
  | step_back w :
      auth_route w = "/auth" → showEmailSent (auth_state w) = true →
      auth_step w (back_to_sign_up w)
  | step_sign_up_done w email resp fsel fins :
      in_flight w = Some (SignUpReq email) →
      auth_step w (handleSignUp_done email resp fsel fins w)
  | step_sign_in_done w resp fsel fins :
      in_flight w = Some SignInReq →
      auth_step w (handleSignIn_done resp fsel fins w)
  | step_resend_done w email err :
      in_flight w = Some (ResendReq email) →
      auth_step w (handleResendConfirmation_done err w).

Definition initial_auth_world (profiles : gmap string Types.Profile) : AuthWorld :=
  mkAuthWorld initial_auth_state None profiles [] "/auth".

(** The loading flag is set exactly while a call is in flight, and the
    email card always has an address to resend to. *)
Definition auth_inv (w : AuthWorld) : Prop :=
  (isLoading (auth_state w) = true ↔ is_Some (in_flight w)) ∧
  (showEmailSent (auth_state w) = true → userEmail (auth_state w) ≠ "") ∧
  (∀ email, in_flight w = Some (SignUpReq email) → email ≠ "").

(** ** Properties *)

Lemma auth_ensure_keeps (fsel fins : option string) u ps k p :
  ps !! k = Some p → auth_ensureUserProfile fsel fins u ps !! k = Some p.
Proof.
  intros Hk. unfold auth_ensureUserProfile.
  destruct (match fsel with Some _ => None | None => ps !! user_id u end); [done|].
  destruct fins; [done|]. case_bool_decide as Hs; [done|].
  rewrite lookup_insert_ne; [done|]. intros Heq. apply Hs. rewrite Heq. by eexists.
Qed.

Lemma auth_step_profiles w w' :
  auth_step w w' → auth_profiles w ⊆ auth_profiles w'.
Proof.
  intros Hs. apply map_subseteq_spec. intros k p Hk.
  destruct Hs as [| | w ? ? ? Hr| | w email resp fsel fins _|w resp fsel fins _|w email err _];
    simpl; try done.
  - unfold handleResendConfirmation. by case_match.
  - destruct resp as [m|[u|] [|]]; simpl; try done. by apply auth_ensure_keeps.
  - destruct resp as [m|[u|] ?]; simpl; try done. by apply auth_ensure_keeps.
  - by destruct err.
Qed.

Lemma auth_step_inv w w' : auth_inv w → auth_step w w' → auth_inv w'.
Proof.
  intros (Hl & He & Hf) Hs.
  destruct Hs as [w email _ Hload _ Hne|w _ Hload _|w _ Hload Hshow|w _ Hshow
                 |w email resp fsel fins Hr|w resp fsel fins Hr|w email err Hr]; simpl in *.
  - split_and!; [naive_solver|naive_solver|by intros ? [= <-]].
  - split_and!; [naive_solver|naive_solver|by intros ? [=]].
  - unfold handleResendConfirmation. case_match; [done|]. simpl.
    split_and!; [naive_solver|naive_solver|by intros ? [=]].
  - split_and!; [done|done|done].
  - pose proof (Hf email Hr) as Hne.
    destruct resp as [m|[u|] [|]]; simpl; split_and!; naive_solver.
  - destruct resp as [m|[u|] ?]; simpl; split_and!; naive_solver.
  - destruct err; simpl; split_and!; naive_solver.
Qed.

(** C38: in every state the form reaches, [isLoading] is set exactly while
    a provider call is in flight (every branch of every handler resets
    it), so the buttons are never left disabled; and the "Check your
    email" card always holds the address to resend to, so the resend
    button never hits the early return of [handleResendConfirmation]. *)
Theorem auth_reachable_inv ps w :
  rtc auth_step (initial_auth_world ps) w → auth_inv w.
Proof.
  intros Hr. eapply (rtc_invariant auth_step auth_inv); [|exact Hr|].
  - intros x y. apply auth_step_inv.
  - split_and!; [naive_solver|naive_solver|done].
Qed.

(** C39: the form's [ensureUserProfile] writes the same profiles table as
    the editor's ([post-form.tsx]) on every branch, the two differ only in
    that the form swallows the error; it creates the profile unless the
    insert fails, and never changes an existing profile. *)
Theorem auth_ensure_matches_editor fsel fins u ps :
  auth_ensureUserProfile fsel fins u ps = (ensureUserProfile fsel fins u ps).2 ∧
  (fins = None → is_Some (auth_ensureUserProfile fsel fins u ps !! user_id u)) ∧
  ps ⊆ auth_ensureUserProfile fsel fins u ps.
Proof.
  split_and!.
  - unfold auth_ensureUserProfile, ensureUserProfile. by repeat case_match.
  - intros ->. unfold auth_ensureUserProfile.
    destruct fsel; [|destruct (ps !! user_id u) eqn:E; [by eexists|]];
      case_bool_decide as Hs; try done; by rewrite lookup_insert_eq.
  - apply map_subseteq_spec. intros k p. apply auth_ensure_keeps.
Qed.

(** The form never removes or overwrites a profile: along any run
    the initial profiles table stays included in the current one. *)
Theorem auth_profiles_grow ps w :
  rtc auth_step (initial_auth_world ps) w → ps ⊆ auth_profiles w.
Proof.
  intros Hr. change ps with (auth_profiles (initial_auth_world ps)).
  induction Hr as [|x y z Hxy _ IH]; [done|]. etrans; [apply auth_step_profiles, Hxy|done].
Qed.

(** ** A sign-up that needs confirmation, then a resend *)

Definition ann : User := mkUser "u2" "ann@example.com" (Some "Ann") None.

Definition aw0 : AuthWorld := initial_auth_world ∅.
Definition aw1 : AuthWorld := start (SignUpReq "ann@example.com") aw0.
Definition aw2 : AuthWorld := handleSignUp_done "ann@example.com" (AuthData (Some ann) false) None None aw1.
Definition aw3 : AuthWorld := handleResendConfirmation aw2.
Definition aw4 : AuthWorld := handleResendConfirmation_done None aw3.

Lemma signup_run_steps : rtc auth_step aw0 aw4.
Proof.
  apply (rtc_l _ _ aw1); [apply step_sign_up; done|].
  apply (rtc_l _ _ aw2); [eapply step_sign_up_done; reflexivity|].
  apply (rtc_l _ _ aw3); [apply step_resend; reflexivity|].
  apply (rtc_l _ _ aw4); [eapply step_resend_done; reflexivity|].
  apply rtc_refl.
Defined.

Lemma auth_reachable_inv_witness :
  auth_inv aw4 ∧ auth_toasts aw4 = [ToastCheckEmail; ToastEmailSent] ∧
  showEmailSent (auth_state aw4) = true.
Proof. split; [apply (auth_reachable_inv ∅), signup_run_steps|split; reflexivity]. Defined.

(** A sign-in of [ann] beside the existing profile of [u1]. *)
Definition bw0 : AuthWorld := initial_auth_world (profiles db0).
Definition bw1 : AuthWorld := start SignInReq bw0.
Definition bw2 : AuthWorld := handleSignIn_done (AuthData (Some ann) true) None None bw1.

Lemma auth_profiles_grow_witness :
  profiles db0 ⊆ auth_profiles bw2 ∧ is_Some (auth_profiles bw2 !! "u2") ∧ auth_route bw2 = "/".
Proof.
  split_and!; [|vm_compute; by eexists|reflexivity].
  apply (auth_profiles_grow (profiles db0) bw2).
  apply (rtc_l _ _ bw1); [apply step_sign_in; reflexivity|].
  apply (rtc_l _ _ bw2); [eapply step_sign_in_done; reflexivity|]. apply rtc_refl.
Defined.
